(** * IL2-SRS client: the protocol client and the playback gain stage

    A shallow embedding of [srsServerHandler.py] (class [SrsServerClient]),
    of [AudioManager.play_audio] from [audio.py] and of the callback wiring
    of [main.py], followed by the properties of the specification that
    concern them.

    Python objects are records, methods are computations in a small
    state-and-exception monad over one world (the client object, the audio
    manager, the operating system's sockets, and the trace of observable
    effects).  What the environment decides (whether a system call fails,
    what a socket delivers) is an explicit argument of the method. *)

From Stdlib Require Import ZArith NArith List Lia QArith Qround Qabs Lqa Bool.
From Stdlib.Strings Require Import Byte Ascii String.
From Stdlib Require Import DecimalString.
From stdpp Require Import base gmap sets.
Import ListNotations.

#[local] Open Scope Z_scope.
#[local] Set Default Proof Using "All".
#[local] Set Warnings "-register-all".

(* ================================================================== *)
(** * Bytes and text *)
(* ================================================================== *)

(** A Python [bytes]/[bytearray] value. *)
Abbreviation bytes := (list byte).

(** A Python [str]: its sequence of Unicode code points. *)
Abbreviation pystr := (list N).

(** The code points of an ASCII literal of the source. *)
Definition pystr_of_string (s : string) : pystr :=
  List.map N_of_ascii (list_ascii_of_string s).

(** The byte whose value is [n mod 256]. *)
Definition byte_of_N (n : N) : byte :=
  match Byte.of_N (n mod 256)%N with
  | Some b => b
  | None => x00
  end.

(** [str.encode('utf-8')] for one code point; lone surrogates (and values
    that are not code points) raise [UnicodeEncodeError], here [None]. *)
Definition utf8_encode_cp (c : N) : option bytes :=
  (if c <? 0x80 then Some [byte_of_N c]
   else if c <? 0x800 then
     Some [byte_of_N (N.lor 0xC0 (N.shiftr c 6));
           byte_of_N (N.lor 0x80 (N.land c 0x3F))]
   else if c <? 0x10000 then
     if (0xD800 <=? c) && (c <=? 0xDFFF) then None
     else
       Some [byte_of_N (N.lor 0xE0 (N.shiftr c 12));
             byte_of_N (N.lor 0x80 (N.land (N.shiftr c 6) 0x3F));
             byte_of_N (N.lor 0x80 (N.land c 0x3F))]
   else if c <? 0x110000 then
     Some [byte_of_N (N.lor 0xF0 (N.shiftr c 18));
           byte_of_N (N.lor 0x80 (N.land (N.shiftr c 12) 0x3F));
           byte_of_N (N.lor 0x80 (N.land (N.shiftr c 6) 0x3F));
           byte_of_N (N.lor 0x80 (N.land c 0x3F))]
   else None)%N.

Fixpoint utf8_encode (s : pystr) : option bytes :=
  match s with
  | [] => Some []
  | c :: s' =>
      match utf8_encode_cp c, utf8_encode s' with
      | Some b, Some bs => Some (b ++ bs)
      | _, _ => None
      end
  end.

(** A continuation byte [10xxxxxx]. *)
Definition is_cont (b : byte) : bool :=
  (N.land (Byte.to_N b) 0xC0 =? 0x80)%N.

Definition cont_bits (b : byte) : N := N.land (Byte.to_N b) 0x3F.

(** [bytes.decode('utf-8')], strict: truncated sequences, stray
    continuation bytes, overlong forms, surrogates and values above
    U+10FFFF raise [UnicodeDecodeError], here [None]. *)
Fixpoint utf8_decode (bs : bytes) : option pystr :=
  match bs with
  | [] => Some []
  | b0 :: r0 =>
      let n0 := Byte.to_N b0 in
      if (n0 <? 0x80)%N then option_map (cons n0) (utf8_decode r0)
      else if (n0 <? 0xC2)%N then None
      else if (n0 <? 0xE0)%N then
        match r0 with
        | b1 :: r1 =>
            if is_cont b1 then
              option_map
                (cons (N.lor (N.shiftl (N.land n0 0x1F) 6) (cont_bits b1)))
                (utf8_decode r1)
            else None
        | _ => None
        end
      else if (n0 <? 0xF0)%N then
        match r0 with
        | b1 :: b2 :: r2 =>
            let c := N.lor (N.shiftl (N.land n0 0x0F) 12)
                       (N.lor (N.shiftl (cont_bits b1) 6) (cont_bits b2)) in
            if is_cont b1 && is_cont b2 && (0x800 <=? c)%N
               && negb ((0xD800 <=? c)%N && (c <=? 0xDFFF)%N)
            then option_map (cons c) (utf8_decode r2)
            else None
        | _ => None
        end
      else if (n0 <? 0xF5)%N then
        match r0 with
        | b1 :: b2 :: b3 :: r3 =>
            let c := N.lor (N.shiftl (N.land n0 0x07) 18)
                       (N.lor (N.shiftl (cont_bits b1) 12)
                          (N.lor (N.shiftl (cont_bits b2) 6) (cont_bits b3))) in
            if is_cont b1 && is_cont b2 && is_cont b3
               && (0x10000 <=? c)%N && (c <? 0x110000)%N
            then option_map (cons c) (utf8_decode r3)
            else None
        | _ => None
        end
      else None
  end.

(** The [k] low-order bytes of [n], least significant first. *)
Fixpoint le_bytes (k : nat) (n : N) : bytes :=
  match k with
  | O => []
  | S k' => byte_of_N n :: le_bytes k' (N.shiftr n 8)
  end.

(** The unsigned integer a little-endian byte string stands for. *)
Fixpoint le_value (bs : bytes) : N :=
  match bs with
  | [] => 0
  | b :: bs' => Byte.to_N b + 256 * le_value bs'
  end%N.

(** [struct.pack('<Q', n)]: eight bytes, little-endian, unsigned;
    [struct.error] (here [None]) when [n] is not in [0, 2^64). *)
Definition struct_pack_Q (n : Z) : option bytes :=
  if (0 <=? n) && (n <? 2 ^ 64) then Some (le_bytes 8 (Z.to_N n)) else None.

(* ================================================================== *)
(** * JSON values and the [json] module *)
(* ================================================================== *)

(** A Python [float]: a finite one is held by its exact rational value
    (the rounding of a literal to the nearest double and the sign of zero
    are not kept). *)
Inductive pyfloat : Type :=
| FFinite (q : Q)
| FInf (negative : bool)
| FNaN.

(** A value [json.dumps] accepts and [json.loads] returns.  A [dict] keeps
    its insertion order, which [json.dumps] follows, so it is an association
    list; all keys of this program are strings. *)
Inductive json : Type :=
| JNull
| JBool (b : bool)
| JInt (z : Z)
| JFloat (x : pyfloat)
| JStr (s : pystr)
| JList (l : list json)
| JDict (d : list (pystr * json)).

Abbreviation pydict := (list (pystr * json)).

Definition pystr_eqb (a b : pystr) : bool :=
  bool_decide (a = b).


(** [d[k] = v]: an existing key keeps its place, a new key goes last. *)
Fixpoint dict_set (d : pydict) (k : pystr) (v : json) : pydict :=
  match d with
  | [] => [(k, v)]
  | (k', v') :: d' =>
      if pystr_eqb k' k then (k', v) :: d' else (k', v') :: dict_set d' k v
  end.

(** [d.update(e)]. *)
Definition dict_update (d e : pydict) : pydict :=
  fold_left (fun acc kv => dict_set acc (fst kv) (snd kv)) e d.

Definition hex_digit (n : N) : N :=
  (if n <? 10 then 48 + n else 87 + n)%N.

(** ['\\u{0:04x}'.format(n)] for [n < 0x10000]. *)
Definition u_escape (n : N) : pystr :=
  [92; 117;
   hex_digit (N.land (N.shiftr n 12) 0xF); hex_digit (N.land (N.shiftr n 8) 0xF);
   hex_digit (N.land (N.shiftr n 4) 0xF); hex_digit (N.land n 0xF)]%N.

(** The replacement of one character by [py_encode_basestring_ascii]. *)
Definition escape_cp (c : N) : pystr :=
  (if c =? 34 then [92; 34]
   else if c =? 92 then [92; 92]
   else if c =? 8 then [92; 98]
   else if c =? 12 then [92; 102]
   else if c =? 10 then [92; 110]
   else if c =? 13 then [92; 114]
   else if c =? 9 then [92; 116]
   else if (32 <=? c) && (c <=? 126) then [c]
   else if c <? 0x10000 then u_escape c
   else
     let n := c - 0x10000 in
     u_escape (N.lor 0xD800 (N.land (N.shiftr n 10) 0x3FF))
       ++ u_escape (N.lor 0xDC00 (N.land n 0x3FF)))%N.

(** A string as [json.dumps] writes it ([ensure_ascii=True]). *)
Definition dumps_str (s : pystr) : pystr :=
  [34%N] ++ flat_map escape_cp s ++ [34%N].

(** [int.__repr__]. *)
Definition int_repr (z : Z) : pystr :=
  pystr_of_string (NilZero.string_of_int (Z.to_int z)).

(** [float.__repr__] as [json.dumps] uses it ([allow_nan=True]).  A finite
    float whose value is a whole number below [10^16] in magnitude, such as
    the [1.0] of a radio's volume, prints as that number followed by [.0].
    Other finite floats print their shortest round-trip digits, which need
    the binary representation; they are outside this model ([None]). *)
Definition float_repr (x : pyfloat) : option pystr :=
  match x with
  | FFinite q =>
      let z := Qnum q / Zpos (Qden q) in
      if (Qnum q mod Zpos (Qden q) =? 0) && (Z.abs z <? 10 ^ 16)
      then Some (int_repr z ++ pystr_of_string ".0")
      else None
  | FInf false => Some (pystr_of_string "Infinity")
  | FInf true => Some (pystr_of_string "-Infinity")
  | FNaN => Some (pystr_of_string "NaN")
  end.

Definition opt_bind {A B : Type} (o : option A) (f : A -> option B) : option B :=
  match o with
  | Some a => f a
  | None => None
  end.

(** [json.dumps(j)] with the default separators [', '] and [': ']. *)
Fixpoint dumps (j : json) : option pystr :=
  match j with
  | JNull => Some (pystr_of_string "null")
  | JBool true => Some (pystr_of_string "true")
  | JBool false => Some (pystr_of_string "false")
  | JInt z => Some (int_repr z)
  | JFloat x => float_repr x
  | JStr s => Some (dumps_str s)
  | JList l =>
      let fix items (l : list json) : option pystr :=
        match l with
        | [] => Some []
        | [x] => dumps x
        | x :: l' =>
            opt_bind (dumps x) (fun sx =>
            opt_bind (items l') (fun sl =>
            Some (sx ++ pystr_of_string ", " ++ sl)))
        end in
      opt_bind (items l) (fun s =>
      Some (pystr_of_string "[" ++ s ++ pystr_of_string "]"))
  | JDict d =>
      let fix items (d : pydict) : option pystr :=
        match d with
        | [] => Some []
        | [(k, v)] =>
            opt_bind (dumps v) (fun sv =>
            Some (dumps_str k ++ pystr_of_string ": " ++ sv))
        | (k, v) :: d' =>
            opt_bind (dumps v) (fun sv =>
            opt_bind (items d') (fun sd =>
            Some (dumps_str k ++ pystr_of_string ": " ++ sv
                    ++ pystr_of_string ", " ++ sd)))
        end in
      opt_bind (items d) (fun s =>
      Some (pystr_of_string "{" ++ s ++ pystr_of_string "}"))
  end.

(** ** [json.loads]

    The decoder of CPython's [json] package (scanner, [scanstring],
    [JSONObject], [JSONArray]) on a [str].  [None] is [JSONDecodeError].
    Nesting is followed with fuel; [py_json_loads] gives more fuel than any
    input can use, so the interpreter's recursion limit is not modelled. *)

Definition is_ws (c : N) : bool :=
  ((c =? 32) || (c =? 9) || (c =? 10) || (c =? 13))%N.

Fixpoint skip_ws (s : pystr) : pystr :=
  match s with
  | c :: s' => if is_ws c then skip_ws s' else s
  | [] => []
  end.

Definition is_digit (c : N) : bool := ((48 <=? c) && (c <=? 57))%N.

Fixpoint take_digits (s : pystr) : pystr * pystr :=
  match s with
  | c :: s' =>
      if is_digit c then let '(ds, r) := take_digits s' in (c :: ds, r)
      else ([], s)
  | [] => ([], [])
  end.

Definition digits_value (ds : pystr) : Z :=
  fold_left (fun a d => 10 * a + (Z.of_N d - 48)) ds 0.

Definition hex_value (c : N) : option N :=
  (if is_digit c then Some (c - 48)
   else if (97 <=? c) && (c <=? 102) then Some (c - 87)
   else if (65 <=? c) && (c <=? 70) then Some (c - 55)
   else None)%N.

Definition parse_hex4 (s : pystr) : option (N * pystr) :=
  match s with
  | a :: b :: c :: d :: r =>
      match hex_value a, hex_value b, hex_value c, hex_value d with
      | Some x, Some y, Some z, Some w =>
          Some ((((x * 16 + y) * 16 + z) * 16 + w)%N, r)
      | _, _, _, _ => None
      end
  | _ => None
  end.

(** The character a backslash escape other than [\u] stands for. *)
Definition backslash (e : N) : option N :=
  (if e =? 34 then Some 34
   else if e =? 92 then Some 92
   else if e =? 47 then Some 47
   else if e =? 98 then Some 8
   else if e =? 102 then Some 12
   else if e =? 110 then Some 10
   else if e =? 114 then Some 13
   else if e =? 116 then Some 9
   else None)%N.

(** [scanstring], strict, from just after the opening quote: the string
    and the input after its closing quote. *)
Fixpoint scanstring (fuel : nat) (s : pystr) : option (pystr * pystr) :=
  match fuel with
  | O => None
  | S f =>
      let emit (c : N) (r : pystr) :=
        option_map (fun '(t, r') => (c :: t, r')) (scanstring f r) in
      match s with
      | [] => None
      | c :: r =>
          if (c =? 34)%N then Some ([], r)
          else if (c =? 92)%N then
            match r with
            | [] => None
            | e :: r1 =>
                if (e =? 117)%N then
                  match parse_hex4 r1 with
                  | None => None
                  | Some (u1, r2) =>
                      if ((0xD800 <=? u1) && (u1 <=? 0xDBFF))%N then
                        match r2 with
                        | 92%N :: 117%N :: r3 =>
                            match parse_hex4 r3 with
                            | None => None
                            | Some (u2, r4) =>
                                if ((0xDC00 <=? u2) && (u2 <=? 0xDFFF))%N
                                then emit (0x10000 + N.lor (N.shiftl (u1 - 0xD800) 10)
                                                       (u2 - 0xDC00))%N r4
                                else emit u1 r2
                            end
                        | _ => emit u1 r2
                        end
                      else emit u1 r2
                  end
                else
                  match backslash e with
                  | Some c' => emit c' r1
                  | None => None
                  end
            end
          else if (c <? 32)%N then None
          else emit c r
      end
  end.

Definition Qpow10 (e : Z) : Q :=
  if 0 <=? e then inject_Z (10 ^ e) else 1 # Z.to_pos (10 ^ (- e)).

(** A number, as [NUMBER_RE] matches it: an optional minus sign, then a
    single zero or a nonzero digit followed by digits; then, when present in
    full, a point with one digit or more, and an exponent mark with an
    optional sign and one digit or more.  Without fraction and exponent the
    value is an [int], otherwise a [float]. *)
Definition parse_number (s : pystr) : option (json * pystr) :=
  let '(neg, s1) := match s with
                    | 45%N :: r => (true, r)
                    | _ => (false, s)
                    end in
  let int_part :=
    match s1 with
    | 48%N :: r => Some ([48%N], r)
    | c :: _ => if is_digit c then Some (take_digits s1) else None
    | [] => None
    end in
  match int_part with
  | None => None
  | Some (ds, r1) =>
      let '(frac, r2) :=
        match r1 with
        | 46%N :: r =>
            let '(fd, r') := take_digits r in
            match fd with [] => (None, r1) | _ => (Some fd, r') end
        | _ => (None, r1)
        end in
      let '(exp, r3) :=
        match r2 with
        | e :: r =>
            if ((e =? 101) || (e =? 69))%N then
              let '(sgn, r') := match r with
                                | 45%N :: t => (-1, t)
                                | 43%N :: t => (1, t)
                                | _ => (1, r)
                                end in
              let '(ed, r'') := take_digits r' in
              match ed with
              | [] => (None, r2)
              | _ => (Some (sgn * digits_value ed), r'')
              end
            else (None, r2)
        | [] => (None, r2)
        end in
      let sign := if neg : bool then -1 else 1 in
      match frac, exp with
      | None, None => Some (JInt (sign * digits_value ds), r3)
      | _, _ =>
          let fd := match frac with Some fd => fd | None => [] end in
          let e := match exp with Some e => e | None => 0 end in
          let mant := sign * digits_value (ds ++ fd) in
          Some (JFloat (FFinite (Qred (inject_Z mant
                                       * Qpow10 (e - Z.of_nat (length fd))))), r3)
      end
  end.

(** [s] without the prefix [p], when it starts with it. *)
Fixpoint strip_prefix (p s : pystr) : option pystr :=
  match p, s with
  | [], _ => Some s
  | a :: p', b :: s' => if (a =? b)%N then strip_prefix p' s' else None
  | _ :: _, [] => None
  end.

(** [scan_once] at a position, and the loops of [JSONArray] and
    [JSONObject] from their first element. *)
Fixpoint scan_once (fuel : nat) (s : pystr) : option (json * pystr) :=
  match fuel with
  | O => None
  | S f =>
      match s with
      | [] => None
      | c :: r =>
          if (c =? 34)%N then
            option_map (fun '(t, r') => (JStr t, r')) (scanstring (length r) r)
          else if (c =? 123)%N then
            match skip_ws r with
            | 125%N :: r' => Some (JDict [], r')
            | 34%N :: r' =>
                option_map (fun '(d, r'') => (JDict d, r'')) (object_members f [] r')
            | _ => None
            end
          else if (c =? 91)%N then
            match skip_ws r with
            | 93%N :: r' => Some (JList [], r')
            | r' => option_map (fun '(l, r'') => (JList l, r'')) (array_items f r')
            end
          else
            match strip_prefix (pystr_of_string "null") s with
            | Some r' => Some (JNull, r')
            | None =>
            match strip_prefix (pystr_of_string "true") s with
            | Some r' => Some (JBool true, r')
            | None =>
            match strip_prefix (pystr_of_string "false") s with
            | Some r' => Some (JBool false, r')
            | None =>
            match parse_number s with
            | Some res => Some res
            | None =>
            match strip_prefix (pystr_of_string "NaN") s with
            | Some r' => Some (JFloat FNaN, r')
            | None =>
            match strip_prefix (pystr_of_string "Infinity") s with
            | Some r' => Some (JFloat (FInf false), r')
            | None =>
            match strip_prefix (pystr_of_string "-Infinity") s with
            | Some r' => Some (JFloat (FInf true), r')
            | None => None
            end end end end end end end
      end
  end
with array_items (fuel : nat) (s : pystr) : option (list json * pystr) :=
  match fuel with
  | O => None
  | S f =>
      match scan_once f s with
      | None => None
      | Some (v, r) =>
          match skip_ws r with
          | 93%N :: r' => Some ([v], r')
          | 44%N :: r' =>
              option_map (fun '(l, r'') => (v :: l, r'')) (array_items f (skip_ws r'))
          | _ => None
          end
      end
  end
with object_members (fuel : nat) (acc : pydict) (s : pystr)
  : option (pydict * pystr) :=
  match fuel with
  | O => None
  | S f =>
      match scanstring (length s) s with
      | None => None
      | Some (key, r) =>
          match skip_ws r with
          | 58%N :: r1 =>
              match scan_once f (skip_ws r1) with
              | None => None
              | Some (v, r2) =>
                  let acc' := dict_set acc key v in
                  match skip_ws r2 with
                  | 125%N :: r' => Some (acc', r')
                  | 44%N :: r' =>
                      match skip_ws r' with
                      | 34%N :: r'' => object_members f acc' r''
                      | _ => None
                      end
                  | _ => None
                  end
              end
          | _ => None
          end
      end
  end.

(** [json.loads(s)] for a [str]: one value between optional white space,
    and nothing after it. *)
Definition py_json_loads (s : pystr) : option json :=
  match s with
  | 0xFEFF%N :: _ => None
  | _ =>
      match scan_once (2 * length s + 2) (skip_ws s) with
      | Some (v, r) => match skip_ws r with [] => Some v | _ => None end
      | None => None
      end
  end.

(* ================================================================== *)
(** * The world: objects, sockets, effects *)
(* ================================================================== *)

(** The exception classes that matter to the handlers of the source. *)
Inductive exn : Type :=
| OSError               (* [socket.error] is an alias *)
| ConnectionResetError  (* a subclass of [OSError] *)
| OverflowError
| StructError           (* [struct.error] *)
| UnicodeEncodeError
| UnicodeDecodeError
| JSONDecodeError
| ValueError
| RecursionError
| RuntimeError
| AttributeError
| PortAudioError
| PyOggError.

#[global] Instance exn_eq_dec : EqDecision exn.
Proof. solve_decision. Defined.

(** [isinstance(e, OSError)]. *)
Definition is_OSError (e : exn) : bool :=
  match e with
  | OSError | ConnectionResetError => true
  | _ => false
  end.

(** A socket object, named by its file descriptor. *)
Abbreviation handle := N.

(** The loops [connect] starts as daemon threads. *)
Inductive loop_name : Type :=
| TcpReceiveLoop
| UdpReceiveLoop
| PingLoop.

(** A [threading.Thread] object. *)
Inductive thread : Type :=
| Thread (target : loop_name).

(** A [sounddevice.OutputStream] on a device. *)
Inductive stream : Type :=
| OutputStream (device : pystr).

(** [ReceivedVoice], the named tuple handed to the audio callback. *)
Record ReceivedVoice : Type := mkReceivedVoice {
  audio_payload : bytes;
  sender_guid : option pystr
}.

(** What the source prints. *)
Inductive log_msg : Type :=
| LogAlreadyConnected
| LogConnecting (address : pystr) (port : Z)
| LogTcpConnected
| LogUdpBound
| LogHandshakeSent
| LogClientStarted
| LogFatalConnect (e : exn)
| LogNotConnected
| LogDisconnecting
| LogClosedByServer
| LogReceivedJson (message : json)
| LogCouldNotDecode (e : exn)
| LogRawData (packet_data : bytes)
| LogConnectionReset
| LogReceiveError (e : exn)
| LogTcpLoopStopped
| LogUdpLoopStarted
| LogUdpReceiveError (e : exn)
| LogUdpLoopStopped
| LogVoiceSendError (e : exn)
| LogRadioUpdateError (e : exn)
| LogFatalPlayback (e : exn).

(** The observable effects, in the order they happen. *)
Inductive event : Type :=
| EvPrint (m : log_msg)
| EvTcpConnect (h : handle) (address : pystr) (port : Z)
| EvUdpBind (h : handle)
| EvSendall (h : handle) (data : bytes)
| EvSendto (h : handle) (data : bytes) (address : pystr) (port : Z)
| EvThreadStart (t : thread)
| EvSleep (seconds : Z)
| EvStreamStart (s : stream)
| EvStreamWrite (s : stream) (samples : list Z).

(** The fields of an [SrsServerClient].  The callback given to [__init__]
    is an argument of the receive loop that calls it. *)
Record Client : Type := mkClient {
  server_address : pystr;
  server_port : Z;
  pilot_name : pystr;
  client_guid : pystr;
  tcp_sock : option handle;
  udp_sock : option handle;
  voice_packet_id : Z;
  is_running : bool;
  ping_thread : option thread;
  tcp_receive_thread : option thread;
  udp_receive_thread : option thread
}.

(** The fields of an [AudioManager] that playback uses. *)
Record AudioManager : Type := mkAudioManager {
  output_device : pystr;
  output_stream : option stream;
  speaker_boost_db : Q
}.

Record World : Type := mkWorld {
  client : Client;
  audio_manager : option AudioManager;
  next_fd : handle;
  open_socks : gset handle;
  trace : list event
}.

(** The result of running Python code: a value or a raised exception. *)
Inductive Res (A : Type) : Type :=
| Ok (a : A)
| Raise (e : exn).
Arguments Ok {A} a.
Arguments Raise {A} e.

(** A computation: state changes made before an exception is raised stay. *)
Definition M (A : Type) : Type := World -> Res A * World.

#[global] Instance M_ret : MRet M := fun A a w => (Ok a, w).
#[global] Instance M_bind : MBind M := fun A B f m w =>
  match m w with
  | (Ok a, w') => f a w'
  | (Raise e, w') => (Raise e, w')
  end.

Definition raise {A : Type} (e : exn) : M A := fun w => (Raise e, w).

(** [try: body / except ...: handler]; the handler decides by the class of
    the exception whether it catches it, and re-raises it otherwise. *)
Definition try_except {A : Type} (body : M A) (handler : exn -> M A) : M A :=
  fun w =>
    match body w with
    | (Ok a, w') => (Ok a, w')
    | (Raise e, w') => handler e w'
    end.

(** The outcome of a call the environment may fail. *)
Definition outcome (o : option exn) : M unit :=
  match o with
  | None => mret tt
  | Some e => raise e
  end.

Definition get_client : M Client := fun w => (Ok (client w), w).

Definition modify_client (f : Client -> Client) : M unit := fun w =>
  (Ok tt, mkWorld (f (client w)) (audio_manager w) (next_fd w) (open_socks w) (trace w)).

Definition emit (e : event) : M unit := fun w =>
  (Ok tt, mkWorld (client w) (audio_manager w) (next_fd w) (open_socks w) (trace w ++ [e])).

Definition print (m : log_msg) : M unit := emit (EvPrint m).

Definition with_tcp_sock (v : option handle) (c : Client) : Client :=
  mkClient (server_address c) (server_port c) (pilot_name c) (client_guid c)
    v (udp_sock c) (voice_packet_id c) (is_running c)
    (ping_thread c) (tcp_receive_thread c) (udp_receive_thread c).

Definition with_udp_sock (v : option handle) (c : Client) : Client :=
  mkClient (server_address c) (server_port c) (pilot_name c) (client_guid c)
    (tcp_sock c) v (voice_packet_id c) (is_running c)
    (ping_thread c) (tcp_receive_thread c) (udp_receive_thread c).

Definition with_voice_packet_id (v : Z) (c : Client) : Client :=
  mkClient (server_address c) (server_port c) (pilot_name c) (client_guid c)
    (tcp_sock c) (udp_sock c) v (is_running c)
    (ping_thread c) (tcp_receive_thread c) (udp_receive_thread c).

Definition with_is_running (v : bool) (c : Client) : Client :=
  mkClient (server_address c) (server_port c) (pilot_name c) (client_guid c)
    (tcp_sock c) (udp_sock c) (voice_packet_id c) v
    (ping_thread c) (tcp_receive_thread c) (udp_receive_thread c).

Definition with_ping_thread (v : option thread) (c : Client) : Client :=
  mkClient (server_address c) (server_port c) (pilot_name c) (client_guid c)
    (tcp_sock c) (udp_sock c) (voice_packet_id c) (is_running c)
    v (tcp_receive_thread c) (udp_receive_thread c).

Definition with_tcp_receive_thread (v : option thread) (c : Client) : Client :=
  mkClient (server_address c) (server_port c) (pilot_name c) (client_guid c)
    (tcp_sock c) (udp_sock c) (voice_packet_id c) (is_running c)
    (ping_thread c) v (udp_receive_thread c).

Definition with_udp_receive_thread (v : option thread) (c : Client) : Client :=
  mkClient (server_address c) (server_port c) (pilot_name c) (client_guid c)
    (tcp_sock c) (udp_sock c) (voice_packet_id c) (is_running c)
    (ping_thread c) (tcp_receive_thread c) v.

(** [socket.socket(...)]: a new open socket, or the failure [o]. *)
Definition socket_socket (o : option exn) : M handle := fun w =>
  match o with
  | Some e => (Raise e, w)
  | None =>
      (Ok (next_fd w),
       mkWorld (client w) (audio_manager w) (N.succ (next_fd w))
         ({[ next_fd w ]} ∪ open_socks w) (trace w))
  end.

(** [sock.close()]. *)
Definition socket_close (h : handle) : M unit := fun w =>
  (Ok tt,
   mkWorld (client w) (audio_manager w) (next_fd w)
     (open_socks w ∖ {[ h ]}) (trace w)).

(** [thread.start()]. *)
Definition thread_start (t : thread) (o : option exn) : M unit :=
  outcome o ;; emit (EvThreadStart t).

(* ================================================================== *)
(** * srsServerHandler.py: [SrsServerClient] *)
(* ================================================================== *)

Definition JSON_MSG_TYPE_SYNC : pystr := pystr_of_string "SYNC".
Definition JSON_MSG_TYPE_UPDATE : pystr := pystr_of_string "UPDATE".
Definition JSON_MSG_TYPE_RADIO_UPDATE : pystr := pystr_of_string "RADIO_UPDATE".
Definition JSON_MSG_TYPE_PING : pystr := pystr_of_string "PING".
Definition SERVER_TYPE : pystr := pystr_of_string "IL2-SRS".
Definition CLIENT_VERSION : pystr := pystr_of_string "1.0.0.0".

(** [__init__]; [guid] is the value [str(uuid.uuid4())] returned. *)
Definition init (server_address : pystr) (server_port : Z) (pilot_name : pystr)
    (guid : pystr) : Client :=
  {| server_address := server_address;
     server_port := server_port;
     pilot_name := match pilot_name with
                   | [] => pystr_of_string "LinuxPilot"
                   | _ => pilot_name
                   end;
     client_guid := guid;
     tcp_sock := None;
     udp_sock := None;
     voice_packet_id := 0;
     is_running := false;
     ping_thread := None;
     tcp_receive_thread := None;
     udp_receive_thread := None |}.

(** [disconnect]. *)
Definition disconnect : M unit :=
  c ← get_client;
  if negb (is_running c) then print LogNotConnected
  else
    print LogDisconnecting ;;
    modify_client (with_is_running false) ;;
    match tcp_sock c with
    | Some h => socket_close h ;; modify_client (with_tcp_sock None)
    | None => mret tt
    end ;;
    match udp_sock c with
    | Some h => socket_close h ;; modify_client (with_udp_sock None)
    | None => mret tt
    end.

(** The [message] dictionary of [_send_json_message], with [client_data]
    merged into its ["Client"] entry when it is given and not empty. *)
Definition control_message (c : Client) (msg_type : pystr)
    (client_data : option pydict) : json :=
  let client_record : pydict :=
    [ (pystr_of_string "ClientGuid", JStr (client_guid c));
      (pystr_of_string "Name", JStr (pilot_name c));
      (pystr_of_string "Coalition", JInt 0);
      (pystr_of_string "Seat", JInt 0) ] in
  let client_record :=
    match client_data with
    | Some (kv :: d) => dict_update client_record (kv :: d)
    | _ => client_record
    end in
  JDict [ (pystr_of_string "MsgType", JStr msg_type);
          (pystr_of_string "ServerType", JStr SERVER_TYPE);
          (pystr_of_string "Version", JStr CLIENT_VERSION);
          (pystr_of_string "Client", JDict client_record) ].

(** [_send_json_message]; [sendall_result] is what [sendall] does.  A
    message that [dumps] cannot print (a float outside the model) does not
    arise from this client; the model lets it raise. *)
Definition _send_json_message (msg_type : pystr) (client_data : option pydict)
    (sendall_result : option exn) : M unit :=
  c ← get_client;
  match is_running c, tcp_sock c with
  | true, Some sock =>
      if pystr_eqb msg_type JSON_MSG_TYPE_PING then mret tt
      else
        let message := control_message c msg_type client_data in
        match dumps message with
        | None => raise ValueError
        | Some text =>
            let json_string := text ++ [10%N] (* the newline *) in
            match utf8_encode json_string with
            | None => raise UnicodeEncodeError
            | Some packet =>
                emit (EvSendall sock packet) ;; outcome sendall_result
            end
        end
  | _, _ => mret tt
  end.

(** [_send_ping]. *)
Definition _send_ping : M unit :=
  _send_json_message JSON_MSG_TYPE_PING None None.

(** [_perform_handshake]. *)
Definition _perform_handshake (sendall_result : option exn) : M unit :=
  _send_json_message JSON_MSG_TYPE_SYNC None sendall_result ;;
  print LogHandshakeSent.

(** Whether a loop goes round again. *)
Inductive loop_ctl : Type :=
| Continue
| Break.

(** One test of [while self.is_running] in [_ping_loop] and the body that
    follows it. *)
Definition _ping_loop_step : M loop_ctl :=
  c ← get_client;
  if is_running c then
    try_except
      (_send_ping ;; emit (EvSleep 4) ;; mret Continue)
      (fun _ => mret Break)
  else mret Break.

(** [_ping_loop], observed for at most [rounds] rounds. *)
Fixpoint _ping_loop (rounds : nat) : M unit :=
  match rounds with
  | O => mret tt
  | S n =>
      ctl ← _ping_loop_step;
      match ctl with
      | Continue => _ping_loop n
      | Break => mret tt
      end
  end.

(** The calls of [connect] that the environment may fail. *)
Inductive site : Type :=
| TcpSocket
| TcpConnect
| UdpSocket
| GetSockName
| UdpBind
| GetSockNameAgain
| HandshakeSendall
| StartTcpThread
| StartUdpThread
| StartPingThread.

(** [connect]; [env] tells, for each call, whether it fails and how. *)
Definition connect (env : site -> option exn) : M unit :=
  c ← get_client;
  if is_running c then print LogAlreadyConnected
  else
    try_except
      (print (LogConnecting (server_address c) (server_port c)) ;;
       t ← socket_socket (env TcpSocket);
       modify_client (with_tcp_sock (Some t)) ;;
       emit (EvTcpConnect t (server_address c) (server_port c)) ;;
       outcome (env TcpConnect) ;;
       print LogTcpConnected ;;
       u ← socket_socket (env UdpSocket);
       modify_client (with_udp_sock (Some u)) ;;
       outcome (env GetSockName) ;;
       emit (EvUdpBind u) ;;
       outcome (env UdpBind) ;;
       outcome (env GetSockNameAgain) ;;
       print LogUdpBound ;;
       _perform_handshake (env HandshakeSendall) ;;
       modify_client (with_is_running true) ;;
       modify_client (with_tcp_receive_thread (Some (Thread TcpReceiveLoop))) ;;
       thread_start (Thread TcpReceiveLoop) (env StartTcpThread) ;;
       modify_client (with_udp_receive_thread (Some (Thread UdpReceiveLoop))) ;;
       thread_start (Thread UdpReceiveLoop) (env StartUdpThread) ;;
       modify_client (with_ping_thread (Some (Thread PingLoop))) ;;
       thread_start (Thread PingLoop) (env StartPingThread) ;;
       print LogClientStarted)
      (fun e =>
         if is_OSError e || bool_decide (e = OverflowError)
         then print (LogFatalConnect e) ;; disconnect
         else raise e).

(** [send_voice_packet]; [sendto_result] is what [sendto] does.
    [radio_num] is not used by the body. *)
Definition send_voice_packet (encoded_opus_packet : bytes) (radio_num : Z)
    (sendto_result : option exn) : M unit :=
  c ← get_client;
  match is_running c, udp_sock c with
  | true, Some sock =>
      try_except
        (modify_client (with_voice_packet_id (voice_packet_id c + 1)) ;;
         match utf8_encode (client_guid c) with
         | None => raise UnicodeEncodeError
         | Some g =>
             let guid_bytes := g ++ [x00] in
             match struct_pack_Q (voice_packet_id c + 1) with
             | None => raise StructError
             | Some q =>
                 let header := q ++ guid_bytes in
                 let packet := header ++ encoded_opus_packet in
                 emit (EvSendto sock packet (server_address c) (server_port c)) ;;
                 outcome sendto_result
             end
         end)
        (fun e => print (LogVoiceSendError e) ;; disconnect)
  | _, _ => mret tt
  end.

(** One radio of the [GameState] of a radio update. *)
Definition radio_entry (channel : Z) (name : string) : pydict :=
  [ (pystr_of_string "channel", JInt channel);
    (pystr_of_string "freq", JInt 0);
    (pystr_of_string "secFreq", JInt 0);
    (pystr_of_string "retransmit", JBool false);
    (pystr_of_string "volume", JFloat (FFinite 1));
    (pystr_of_string "modulation", JInt 0);
    (pystr_of_string "name", JStr (pystr_of_string name)) ].

(** The [client_data] dictionary of [send_radio_update]. *)
Definition radio_client_data (radio1_channel radio2_channel : Z) : pydict :=
  [ (pystr_of_string "GameState",
     JDict [ (pystr_of_string "radios",
              JList [ JDict (radio_entry radio1_channel "Radio 1");
                      JDict (radio_entry radio2_channel "Radio 2") ]);
             (pystr_of_string "control", JInt 0);
             (pystr_of_string "onboard", JBool false);
             (pystr_of_string "ptt", JBool false) ]) ].

(** [send_radio_update]; [sendall_result] is what [sendall] does. *)
Definition send_radio_update (radio1_channel radio2_channel : Z)
    (sendall_result : option exn) : M unit :=
  c ← get_client;
  match is_running c, tcp_sock c with
  | true, Some _ =>
      try_except
        (let client_data := radio_client_data radio1_channel radio2_channel in
         _send_json_message JSON_MSG_TYPE_RADIO_UPDATE (Some client_data)
           sendall_result)
        (fun e => print (LogRadioUpdateError e) ;; disconnect)
  | _, _ => mret tt
  end.

(** What a blocking receive call returns or raises. *)
Inductive recv_result : Type :=
| RecvData (data : bytes)
| RecvRaise (e : exn).

(** [buffer.split(b'\n', 1)] when [b'\n' in buffer]: the bytes before the
    first newline and those after it. *)
Fixpoint split_newline (buffer : bytes) : option (bytes * bytes) :=
  match buffer with
  | [] => None
  | b :: r =>
      if Byte.eqb b x0a then Some ([], r)
      else option_map (fun '(p, q) => (b :: p, q)) (split_newline r)
  end.

(** How a loop that blocks on its socket was left. *)
Inductive loop_state : Type :=
| Waiting (buffer : bytes)   (* blocked in the next receive call *)
| Exited.

Section TcpReceive.

(** [json.loads] on a [str]. *)
Variable json_loads : pystr -> Res json.

(** The body of [while b'\n' in buffer] for one split-off packet. *)
Definition handle_packet (packet_data : bytes) : M unit :=
  match packet_data with
  | [] => mret tt
  | _ :: _ =>
      try_except
        (match utf8_decode packet_data with
         | None => raise UnicodeDecodeError
         | Some text =>
             match json_loads text with
             | Ok message => print (LogReceivedJson message)
             | Raise e => raise e
             end
         end)
        (fun e =>
           if bool_decide (e = JSONDecodeError) || bool_decide (e = UnicodeDecodeError)
           then print (LogCouldNotDecode e) ;; print (LogRawData packet_data)
           else raise e)
  end.

(** [while b'\n' in buffer: ...]; every round removes a newline, so
    [length buffer] rounds are enough (see [process_buffer]). *)
Fixpoint drain_lines (fuel : nat) (buffer : bytes) : M bytes :=
  match fuel with
  | O => mret buffer
  | S n =>
      match split_newline buffer with
      | None => mret buffer
      | Some (packet_data, buffer') =>
          handle_packet packet_data ;; drain_lines n buffer'
      end
  end.

Definition process_buffer (buffer : bytes) : M bytes :=
  drain_lines (length buffer) buffer.

(** One round of [while self.is_running] in [_tcp_receive_loop], after
    the test: the [try] statement.  [r] is what [recv] does. *)
Definition _tcp_receive_step (r : recv_result) (buffer : bytes)
  : M (loop_ctl * bytes) :=
  try_except
    (c ← get_client;
     match tcp_sock c with
     | None => raise AttributeError
     | Some _ =>
         match r with
         | RecvRaise e => raise e
         | RecvData [] => print LogClosedByServer ;; mret (Break, buffer)
         | RecvData data =>
             buffer' ← process_buffer (buffer ++ data);
             mret (Continue, buffer')
         end
     end)
    (fun e =>
       if bool_decide (e = ConnectionResetError)
       then print LogConnectionReset ;; mret (Break, buffer)
       else
         c ← get_client;
         (if is_running c then print (LogReceiveError e) else mret tt) ;;
         mret (Break, buffer)).

(** The loop of [_tcp_receive_loop] fed with the results of its [recv]
    calls, and what follows the loop. *)
Fixpoint tcp_receive_rounds (recvs : list recv_result) (buffer : bytes)
  : M loop_state :=
  let leave : M loop_state :=
    modify_client (with_is_running false) ;;
    print LogTcpLoopStopped ;;
    mret Exited in
  c ← get_client;
  if is_running c then
    match recvs with
    | [] => mret (Waiting buffer)
    | r :: recvs' =>
        res ← _tcp_receive_step r buffer;
        match res with
        | (Continue, buffer') => tcp_receive_rounds recvs' buffer'
        | (Break, _) => leave
        end
    end
  else leave.

(** [_tcp_receive_loop]. *)
Definition _tcp_receive_loop (recvs : list recv_result) : M loop_state :=
  tcp_receive_rounds recvs [].

End TcpReceive.

(** Lines 213 to 216 of [_udp_receive_loop]: the voice a datagram is
    turned into under [if data:], none for an empty datagram.  The sender
    is not known. *)
Definition received_voice (data : bytes) : option ReceivedVoice :=
  match data with
  | [] => None
  | _ :: _ => Some {| audio_payload := data; sender_guid := None |}
  end.

Section UdpReceive.

(** [self.received_audio_callback]. *)
Variable received_audio_callback : ReceivedVoice -> M unit.

(** One round of [while self.is_running] in [_udp_receive_loop], after
    the test.  [r] is what [recvfrom] does. *)
Definition _udp_receive_step (r : recv_result) : M loop_ctl :=
  try_except
    (c ← get_client;
     match udp_sock c with
     | None => raise AttributeError
     | Some _ =>
         match r with
         | RecvRaise e => raise e
         | RecvData data =>
             match received_voice data with
             | None => mret Continue
             | Some voice_data =>
                 received_audio_callback voice_data ;; mret Continue
             end
         end
     end)
    (fun e =>
       c ← get_client;
       (if is_running c then print (LogUdpReceiveError e) else mret tt) ;;
       mret Break).

Fixpoint udp_receive_rounds (recvs : list recv_result) : M loop_state :=
  c ← get_client;
  if is_running c then
    match recvs with
    | [] => mret (Waiting [])
    | r :: recvs' =>
        ctl ← _udp_receive_step r;
        match ctl with
        | Continue => udp_receive_rounds recvs'
        | Break => print LogUdpLoopStopped ;; mret Exited
        end
    end
  else print LogUdpLoopStopped ;; mret Exited.

(** [_udp_receive_loop]. *)
Definition _udp_receive_loop (recvs : list recv_result) : M loop_state :=
  print LogUdpLoopStarted ;; udp_receive_rounds recvs.

End UdpReceive.

(* ================================================================== *)
(** * audio.py: [AudioManager.play_audio] *)
(* ================================================================== *)

(** The value of a two-byte pattern read as [int16]. *)
Definition int16_of_bits (n : Z) : Z :=
  (n + 32768) mod 65536 - 32768.

(** [np.frombuffer(b, dtype=np.int16)] on a little-endian machine;
    [ValueError] (here [None]) for a buffer of odd size. *)
Fixpoint frombuffer_int16 (b : bytes) : option (list Z) :=
  match b with
  | [] => Some []
  | lo :: hi :: r =>
      option_map
        (cons (int16_of_bits (Z.of_N (Byte.to_N lo) + 256 * Z.of_N (Byte.to_N hi))))
        (frombuffer_int16 r)
  | [_] => None
  end.

(** The integer part of a number, rounding toward zero. *)
Definition Qtrunc (x : Q) : Z :=
  if Qle_bool 0 x then Qfloor x else Qceiling x.

(** [astype(np.int16)] of a float: the fraction is dropped, and a value
    outside the range of [int16] wraps round. *)
Definition int16_of_float (x : Q) : Z := int16_of_bits (Qtrunc x).

(** [np.clip(x, -1.0, 1.0)]. *)
Definition clip_unit (x : Q) : Q :=
  if Qle_bool x (-1) then -1 else if Qle_bool 1 x then 1 else x.

(** What the environment decides during one [play_audio] call. *)
Record playback_env : Type := mkPlaybackEnv {
  stream_open : option exn;     (* [sd.OutputStream(...)] and [start()] *)
  decoder_decode : Res bytes;   (* [self.decoder.decode(encoded_packet)] *)
  stream_write : option exn     (* [self.output_stream.write(...)] *)
}.

Definition get_audio_manager : M (option AudioManager) :=
  fun w => (Ok (audio_manager w), w).

Definition set_audio_manager (a : AudioManager) : M unit := fun w =>
  (Ok tt, mkWorld (client w) (Some a) (next_fd w) (open_socks w) (trace w)).

Definition with_output_stream (v : option stream) (a : AudioManager) : AudioManager :=
  mkAudioManager (output_device a) v (speaker_boost_db a).

Section Playback.

(** Floating point enters through two functions.  [round_f32 x] is the
    [float32] nearest to the real number [x]; [boost_gain db] is the
    double [10 ** (db / 20)], or the exception the power raises.  Finite
    floats are rational numbers; infinities and NaN are not modelled. *)
Variable round_f32 : Q -> Q.
Variable boost_gain : Q -> Res Q.

(** Lines 113 to 116 of [play_audio] on one sample, given the gain:
    the value [float_array] holds after the clamp, the value
    [float_array * 32767.0], and the sample written. *)
Definition clipped (gain : Q) (sample : Z) : Q :=
  let x := round_f32 (inject_Z sample / 32768) in
  let x := round_f32 (x * round_f32 gain) in
  clip_unit x.

Definition denormalized (gain : Q) (sample : Z) : Q :=
  round_f32 (clipped gain sample * 32767).

Definition boost_sample (gain : Q) (sample : Z) : Z :=
  int16_of_float (denormalized gain sample).

(** The gain stage on a decoded frame. *)
Definition apply_speaker_boost (db : Q) (audio_array : list Z) : Res (list Z) :=
  match boost_gain db with
  | Raise e => Raise e
  | Ok gain => Ok (List.map (boost_sample gain) audio_array)
  end.

(** [play_audio]. *)
Definition play_audio (env : playback_env) (self : AudioManager)
    (encoded_packet : bytes) : M unit :=
  opened ←
    match output_stream self with
    | Some s => mret (Some s)
    | None =>
        try_except
          (outcome (stream_open env) ;;
           let s := OutputStream (output_device self) in
           set_audio_manager (with_output_stream (Some s) self) ;;
           emit (EvStreamStart s) ;;
           mret (Some s))
          (fun e =>
             print (LogFatalPlayback e) ;;
             set_audio_manager (with_output_stream None self) ;;
             mret None)
    end;
  match opened with
  | None => mret tt
  | Some s =>
      match decoder_decode env with
      | Raise e => raise e
      | Ok [] => mret tt
      | Ok decoded_pcm =>
          match frombuffer_int16 decoded_pcm with
          | None => raise ValueError
          | Some audio_array =>
              match apply_speaker_boost (speaker_boost_db self) audio_array with
              | Raise e => raise e
              | Ok boosted =>
                  emit (EvStreamWrite s boosted) ;;
                  outcome (stream_write env)
              end
          end
      end
  end.

(** main.py: [SrsRadioClient._handle_received_audio]. *)
Definition _handle_received_audio (env : playback_env)
    (voice_data : ReceivedVoice) : M unit :=
  a ← get_audio_manager;
  match a with
  | Some self => play_audio env self (audio_payload voice_data)
  | None => mret tt
  end.

End Playback.

(* ================================================================== *)
(** * Runs of the client *)
(* ================================================================== *)

(** The world a computation leaves, and what it returns or raises. *)
Definition exec {A : Type} (m : M A) (w : World) : World := snd (m w).
Definition result {A : Type} (m : M A) (w : World) : Res A := fst (m w).

(** The world with some more events. *)
Definition logged (w : World) (evs : list event) : World :=
  mkWorld (client w) (audio_manager w) (next_fd w) (open_socks w) (trace w ++ evs).

(** The payloads written to the TCP socket, and the datagrams handed to
    the UDP socket with their destination, among some events. *)
Fixpoint tcp_writes (evs : list event) : list bytes :=
  match evs with
  | [] => []
  | EvSendall _ data :: evs' => data :: tcp_writes evs'
  | _ :: evs' => tcp_writes evs'
  end.

Fixpoint udp_datagrams (evs : list event) : list (bytes * pystr * Z) :=
  match evs with
  | [] => []
  | EvSendto _ data address port :: evs' =>
      (data, address, port) :: udp_datagrams evs'
  | _ :: evs' => udp_datagrams evs'
  end.

(** A printable ASCII character, from the space to the tilde. *)
Definition printable (c : N) : bool := ((32 <=? c) && (c <=? 126))%N.

(** The bytes of a control message on the wire. *)
Definition wire_message (message : json) : option bytes :=
  opt_bind (dumps message) (fun text => utf8_encode (text ++ [10%N])).

(** [json.loads] as the model of the [json] module gives it. *)
Definition py_loads (s : pystr) : Res json :=
  match py_json_loads s with
  | Some j => Ok j
  | None => Raise JSONDecodeError
  end.


(** The calls made on a client in the course of a run. *)
Inductive op : Type :=
| OpConnect (env : site -> option exn)
| OpDisconnect
| OpSendVoice (payload : bytes) (radio_num : Z) (sendto_result : option exn)
| OpSendRadioUpdate (radio1_channel radio2_channel : Z) (sendall_result : option exn)
| OpPingRound
| OpTcpReceive (recvs : list recv_result).

Definition discard {A : Type} (m : M A) : M unit := m ;; mret tt.

Definition run_op (o : op) : M unit :=
  match o with
  | OpConnect env => connect env
  | OpDisconnect => disconnect
  | OpSendVoice payload radio_num r => send_voice_packet payload radio_num r
  | OpSendRadioUpdate r1 r2 r => send_radio_update r1 r2 r
  | OpPingRound => discard _ping_loop_step
  | OpTcpReceive recvs => discard (_tcp_receive_loop py_loads recvs)
  end.

(** The world after a list of calls; an exception a call lets through
    reaches its caller, and the run goes on. *)
Definition run_ops (ops : list op) (w : World) : World :=
  fold_left (fun w o => exec (run_op o) w) ops w.

(** Whether [send_voice_packet] goes past its guard. *)
Definition voice_ready (w : World) : bool :=
  is_running (client w) && bool_decide (udp_sock (client w) <> None).

(** For each call of [send_voice_packet] in a run that found the client
    connected, the counter before the call and after it. *)
Fixpoint voice_steps (ops : list op) (w : World) : list (Z * Z) :=
  match ops with
  | [] => []
  | o :: ops' =>
      let w' := exec (run_op o) w in
      match o with
      | OpSendVoice _ _ _ =>
          if voice_ready w
          then (voice_packet_id (client w), voice_packet_id (client w'))
                 :: voice_steps ops' w'
          else voice_steps ops' w'
      | _ => voice_steps ops' w'
      end
  end.

(** [(k, k+1), (k+1, k+2), ...], [n] pairs. *)
Fixpoint unit_steps (k : Z) (n : nat) : list (Z * Z) :=
  match n with
  | O => []
  | S n' => (k, k + 1) :: unit_steps (k + 1) n'
  end.

(** The three places that call the control-message encoder. *)
Inductive control_call : Type :=
| Handshake (sendall_result : option exn)
| RadioUpdate (radio1_channel radio2_channel : Z) (sendall_result : option exn)
| Ping.

Definition control_msg_type (c : control_call) : pystr :=
  match c with
  | Handshake _ => JSON_MSG_TYPE_SYNC
  | RadioUpdate _ _ _ => JSON_MSG_TYPE_RADIO_UPDATE
  | Ping => JSON_MSG_TYPE_PING
  end.

Definition run_control_call (c : control_call) : M unit :=
  match c with
  | Handshake r => _perform_handshake r
  | RadioUpdate r1 r2 r => send_radio_update r1 r2 r
  | Ping => _send_ping
  end.

(* ================================================================== *)
(** * Relations between worlds *)
(* ================================================================== *)

(** [m] takes every world to one related to it by [R], whether it returns
    or raises. *)
Definition preserves {A : Type} (R : World -> World -> Prop) (m : M A) : Prop :=
  forall w, R w (exec m w).

(** The fields of the client that no method assigns after [__init__]. *)
Definition same_identity (w w' : World) : Prop :=
  client_guid (client w') = client_guid (client w)
  /\ pilot_name (client w') = pilot_name (client w)
  /\ server_address (client w') = server_address (client w)
  /\ server_port (client w') = server_port (client w).

(** The voice counter is left alone. *)
Definition same_counter (w w' : World) : Prop :=
  voice_packet_id (client w') = voice_packet_id (client w).

(** A running client holds both its sockets. *)
Definition sockets_while_running (w : World) : Prop :=
  is_running (client w) = true ->
  tcp_sock (client w) <> None /\ udp_sock (client w) <> None.

(** A client that is running afterwards was running before, with the
    same sockets. *)
Definition still_connected (w w' : World) : Prop :=
  is_running (client w') = true ->
  is_running (client w) = true
  /\ tcp_sock (client w') = tcp_sock (client w)
  /\ udp_sock (client w') = udp_sock (client w).

(* ================================================================== *)
(** * Sample inputs *)
(* ================================================================== *)

(** A process that has just built its client and its audio manager:
    descriptors 0 to 2 are the standard streams, no socket is open. *)
Definition boot (c : Client) (a : option AudioManager) : World :=
  {| client := c; audio_manager := a; next_fd := 3; open_socks := ∅; trace := [] |}.

(** An environment in which every call of [connect] succeeds, and one in
    which the server cannot be reached: the TCP connect fails. *)
Definition env_ok : site -> option exn := fun _ => None.

Definition env_unreachable : site -> option exn := fun s =>
  match s with
  | TcpConnect => Some OSError
  | _ => None
  end.

(** A client built by [__init__], connected, disconnected and connected
    again, every call succeeding. *)
Definition sample_client : Client :=
  init (pystr_of_string "10.0.0.5") 6002 (pystr_of_string "Pilot")
    (pystr_of_string "0f8fad5b-d9cb-469f-a165-70867728950e").

Definition sample_audio : AudioManager :=
  {| output_device := pystr_of_string "default";
     output_stream := None;
     speaker_boost_db := 20 |}.

Definition first_session : World :=
  exec (connect env_ok) (boot sample_client (Some sample_audio)).
Definition between_sessions : World := exec disconnect first_session.
Definition second_session : World := exec (connect env_ok) between_sessions.

(** What the environment decides in a playback call that goes well: the
    device opens, the decoder returns two samples, the write succeeds. *)
Definition sample_playback : playback_env :=
  {| stream_open := None;
     decoder_decode := Ok [x10; x27; xf0; xd8];
     stream_write := None |}.

(** Arithmetic without rounding error, as on values every step represents
    exactly, and the gain [10 ** (20 / 20)] of a boost of 20 dB. *)
Definition exact_rounding (x : Q) : Q := x.

Definition tenfold_gain (db : Q) : Res Q := Ok 10%Q.

(* ================================================================== *)
(** * Properties *)
(* ================================================================== *)

(** ** The monad *)

Lemma exec_bind {A B : Type} (m : M A) (f : A -> M B) (w : World) :
  exec (m ≫= f) w =
  match m w with
  | (Ok a, w') => exec (f a) w'
  | (Raise _, w') => w'
  end.
Proof. unfold exec, mbind, M_bind. destruct (m w) as [[a|e] w']; reflexivity. Qed.

Lemma logged_logged (w : World) (a b : list event) :
  logged (logged w a) b = logged w (a ++ b).
Proof. unfold logged. simpl. rewrite <- app_assoc. reflexivity. Qed.

Lemma logged_nil (w : World) : logged w [] = w.
Proof. unfold logged. rewrite app_nil_r. destruct w; reflexivity. Qed.

Lemma tcp_writes_app (a b : list event) :
  tcp_writes (a ++ b) = tcp_writes a ++ tcp_writes b.
Proof. induction a as [|[] a IH]; simpl; rewrite ?IH; reflexivity. Qed.

Ltac unfold_monad :=
  unfold exec, result, logged, discard, try_except, outcome, raise, print, emit,
    get_client, modify_client, socket_socket, socket_close, thread_start,
    get_audio_manager, set_audio_manager, mbind, M_bind, mret, M_ret in *.

(** ** Frame reasoning: what a computation leaves as it was *)

Section Preserves.

Context (R : World -> World -> Prop) `{!PreOrder R}.

Lemma preserves_ret {A : Type} (a : A) : preserves R (mret a : M A).
Proof. intros w. reflexivity. Qed.

Lemma preserves_raise {A : Type} (e : exn) : preserves R (raise e : M A).
Proof. intros w. reflexivity. Qed.

Lemma preserves_outcome (o : option exn) : preserves R (outcome o).
Proof. destruct o; intros w; reflexivity. Qed.

Lemma preserves_get_client : preserves R get_client.
Proof. intros w. reflexivity. Qed.

Lemma preserves_get_audio_manager : preserves R get_audio_manager.
Proof. intros w. reflexivity. Qed.

Lemma preserves_bind {A B : Type} (m : M A) (f : A -> M B) :
  preserves R m -> (forall a, preserves R (f a)) -> preserves R (m ≫= f).
Proof.
  intros Hm Hf w. rewrite exec_bind.
  specialize (Hm w). unfold exec in Hm.
  destruct (m w) as [[a|e] w']; simpl in Hm; [| exact Hm].
  etransitivity; [exact Hm | apply Hf].
Qed.

Lemma preserves_try_except {A : Type} (body : M A) (handler : exn -> M A) :
  preserves R body -> (forall e, preserves R (handler e)) ->
  preserves R (try_except body handler).
Proof.
  intros Hb Hh w. unfold exec, try_except.
  specialize (Hb w). unfold exec in Hb.
  destruct (body w) as [[a|e] w']; simpl in *; [exact Hb |].
  etransitivity; [exact Hb | apply Hh].
Qed.

Lemma preserves_discard {A : Type} (m : M A) :
  preserves R m -> preserves R (discard m).
Proof.
  intros Hm. apply preserves_bind; [exact Hm | intros _; apply preserves_ret].
Qed.

End Preserves.

(** Splits a goal [preserves R m] along the structure of [m]; what is
    left are the calls of other methods and the primitive steps. *)
Ltac preserves_step :=
  lazymatch goal with
  | |- preserves _ (mret _) => apply preserves_ret; tc_solve
  | |- preserves _ (raise _) => apply preserves_raise; tc_solve
  | |- preserves _ (outcome _) => apply preserves_outcome; tc_solve
  | |- preserves _ get_client => apply preserves_get_client; tc_solve
  | |- preserves _ get_audio_manager => apply preserves_get_audio_manager; tc_solve
  | |- preserves _ (discard _) => apply preserves_discard; [tc_solve |]
  | |- preserves _ (mbind _ _) => apply preserves_bind; [tc_solve | | intros ?]
  | |- preserves _ (try_except _ _) =>
      apply preserves_try_except; [tc_solve | | intros ?]
  | |- preserves _ (thread_start _ _) => unfold thread_start
  | |- preserves _ (match ?x with _ => _ end) => destruct x
  | |- preserves _ (let _ := _ in _) => cbv zeta
  end.

Ltac preserves_prim :=
  let w := fresh "w" in
  try lazymatch goal with
      | |- preserves _ (socket_socket ?o) => destruct o
      end;
  intros w; unfold_monad; simpl;
  try (destruct w as [[] ? ? ? ?]; simpl in * );
  first [ done | lia | idtac ].

Create HintDb frame discriminated.

Ltac preserves_auto :=
  repeat preserves_step; first [ solve [auto with frame] | preserves_prim ].

#[local] Instance same_identity_preorder : PreOrder same_identity.
Proof.
  split.
  - intros w. repeat split.
  - intros w1 w2 w3 (?&?&?&?) (?&?&?&?). repeat split; congruence.
Qed.

#[local] Instance same_counter_preorder : PreOrder same_counter.
Proof.
  split.
  - intros w. reflexivity.
  - intros w1 w2 w3 H12 H23. unfold same_counter in *. congruence.
Qed.

Lemma disconnect_same_identity : preserves same_identity disconnect.
Proof. unfold disconnect. preserves_auto. Qed.

Lemma _send_json_message_same_identity msg_type client_data r :
  preserves same_identity (_send_json_message msg_type client_data r).
Proof. unfold _send_json_message. preserves_auto. Qed.

#[local] Hint Resolve disconnect_same_identity _send_json_message_same_identity
  : frame.

Lemma connect_same_identity env : preserves same_identity (connect env).
Proof. unfold connect, _perform_handshake. preserves_auto. Qed.

Lemma disconnect_same_counter : preserves same_counter disconnect.
Proof. unfold disconnect. preserves_auto. Qed.

Lemma _send_json_message_same_counter msg_type client_data r :
  preserves same_counter (_send_json_message msg_type client_data r).
Proof. unfold _send_json_message. preserves_auto. Qed.

#[local] Hint Resolve disconnect_same_counter _send_json_message_same_counter
  : frame.

Lemma connect_same_counter env : preserves same_counter (connect env).
Proof. unfold connect, _perform_handshake. preserves_auto. Qed.

Lemma send_radio_update_same_counter r1 r2 r :
  preserves same_counter (send_radio_update r1 r2 r).
Proof. unfold send_radio_update. preserves_auto. Qed.

Lemma _ping_loop_step_same_counter : preserves same_counter _ping_loop_step.
Proof. unfold _ping_loop_step, _send_ping. preserves_auto. Qed.

Lemma handle_packet_same_counter json_loads packet_data :
  preserves same_counter (handle_packet json_loads packet_data).
Proof. unfold handle_packet. preserves_auto. Qed.

#[local] Hint Resolve handle_packet_same_counter : frame.

Lemma drain_lines_same_counter json_loads fuel buffer :
  preserves same_counter (drain_lines json_loads fuel buffer).
Proof.
  revert buffer. induction fuel as [|n IH]; intros buffer; simpl; preserves_auto.
Qed.

#[local] Hint Resolve drain_lines_same_counter : frame.

Lemma _tcp_receive_step_same_counter json_loads r buffer :
  preserves same_counter (_tcp_receive_step json_loads r buffer).
Proof. unfold _tcp_receive_step, process_buffer. preserves_auto. Qed.

#[local] Hint Resolve _tcp_receive_step_same_counter : frame.

Lemma tcp_receive_rounds_same_counter json_loads recvs buffer :
  preserves same_counter (tcp_receive_rounds json_loads recvs buffer).
Proof.
  revert buffer. induction recvs as [|r recvs IH]; intros buffer; simpl;
    preserves_auto.
Qed.

#[local] Hint Resolve connect_same_counter send_radio_update_same_counter
  _ping_loop_step_same_counter tcp_receive_rounds_same_counter : frame.

(** ** Bytes and text *)

Lemma byte_of_N_value (n : N) : Byte.to_N (byte_of_N n) = (n mod 256)%N.
Proof.
  unfold byte_of_N. destruct (Byte.of_N (n mod 256)) as [b|] eqn:E.
  - apply Byte.to_of_N. exact E.
  - apply Byte.of_N_None_iff in E.
    pose proof (N.mod_upper_bound n 256). lia.
Qed.

Lemma le_bytes_length (k : nat) (n : N) : length (le_bytes k n) = k.
Proof.
  revert n. induction k as [|k IH]; intros n; simpl; [| rewrite IH]; reflexivity.
Qed.

Lemma le_value_le_bytes (k : nat) (n : N) :
  le_value (le_bytes k n) = (n mod 256 ^ N.of_nat k)%N.
Proof.
  revert n. induction k as [|k IH]; intros n.
  - simpl. rewrite N.mod_1_r. reflexivity.
  - cbn [le_bytes le_value]. rewrite byte_of_N_value, IH, N.shiftr_div_pow2.
    change (2 ^ 8)%N with 256%N.
    replace (N.of_nat (S k)) with (N.succ (N.of_nat k)) by lia.
    rewrite N.pow_succ_r'. rewrite N.Div0.mod_mul_r. reflexivity.
Qed.

(** What [struct.pack('<Q', n)] returns is eight bytes long and reads
    back, least significant byte first, as [n]. *)
Lemma struct_pack_Q_spec (n : Z) (q : bytes) :
  struct_pack_Q n = Some q ->
  length q = 8%nat /\ Z.of_N (le_value q) = n.
Proof.
  unfold struct_pack_Q. destruct (0 <=? n) eqn:Hlo; [| discriminate].
  destruct (n <? 2 ^ 64) eqn:Hhi; [| discriminate]. cbn [andb].
  intros H. assert (Hq : q = le_bytes 8 (Z.to_N n)) by congruence.
  rewrite Hq. clear H Hq. split; [apply le_bytes_length |].
  rewrite le_value_le_bytes. change (256 ^ N.of_nat 8)%N with (2 ^ 64)%N.
  rewrite N.mod_small by lia. lia.
Qed.

Lemma struct_pack_Q_in_range (n : Z) :
  0 <= n < 2 ^ 64 -> exists q, struct_pack_Q n = Some q.
Proof.
  intros [Hlo Hhi]. unfold struct_pack_Q.
  apply Z.leb_le in Hlo. apply Z.ltb_lt in Hhi. rewrite Hlo, Hhi.
  eexists. reflexivity.
Qed.

Lemma hex_digit_printable (n : N) : (n < 16)%N -> printable (hex_digit n) = true.
Proof.
  intros H. unfold printable, hex_digit.
  destruct (n <? 10)%N eqn:E; apply andb_true_intro; split;
    apply N.leb_le; try apply N.ltb_lt in E; try apply N.ltb_ge in E; lia.
Qed.

Lemma land_15_lt (n : N) : (N.land n 0xF < 16)%N.
Proof.
  change 0xF%N with (N.ones 4). rewrite N.land_ones.
  apply N.mod_upper_bound. discriminate.
Qed.

Lemma u_escape_printable (n : N) : forallb printable (u_escape n) = true.
Proof.
  unfold u_escape. cbn [forallb].
  rewrite !hex_digit_printable by apply land_15_lt. reflexivity.
Qed.

Lemma escape_cp_printable (c : N) : forallb printable (escape_cp c) = true.
Proof.
  unfold escape_cp.
  repeat match goal with
    | |- context [if ?b then _ else _] => destruct b eqn:?; try reflexivity
    end;
    rewrite ?forallb_app, ?u_escape_printable; try reflexivity.
  cbn [forallb]. unfold printable.
  match goal with H : (_ && _)%bool = true |- _ => rewrite H end. reflexivity.
Qed.

Lemma forallb_flat_map {A B : Type} (p : B -> bool) (f : A -> list B) (l : list A) :
  (forall a, forallb p (f a) = true) -> forallb p (flat_map f l) = true.
Proof.
  intros H. induction l as [|a l IH]; simpl; [reflexivity |].
  rewrite forallb_app, H, IH. reflexivity.
Qed.

(** A string as [json.dumps] writes it holds printable ASCII only: every
    other character is escaped. *)
Lemma dumps_str_printable (s : pystr) : forallb printable (dumps_str s) = true.
Proof.
  unfold dumps_str. rewrite !forallb_app.
  rewrite (forallb_flat_map _ _ _ escape_cp_printable). reflexivity.
Qed.

Lemma string_of_uint_printable (d : Decimal.uint) :
  forallb printable (pystr_of_string (NilEmpty.string_of_uint d)) = true.
Proof. induction d; simpl; try reflexivity; exact IHd. Qed.

Lemma int_repr_printable (z : Z) : forallb printable (int_repr z) = true.
Proof.
  unfold int_repr, NilZero.string_of_int, NilZero.string_of_uint.
  destruct (Z.to_int z) as [d|d]; destruct d; try reflexivity;
    apply (string_of_uint_printable (_ _)) || (simpl; apply string_of_uint_printable).
Qed.


Lemma printable_ascii (text : pystr) :
  forallb printable text = true -> forallb (fun c => c <? 0x80)%N text = true.
Proof.
  induction text as [|c text IH]; simpl; [reflexivity |].
  intros H. apply andb_prop in H as [Hc Ht]. rewrite (IH Ht).
  unfold printable in Hc. apply andb_prop in Hc as [H1 H2].
  apply N.leb_le in H1, H2. rewrite andb_true_r. apply N.ltb_lt. lia.
Qed.

(** On ASCII text UTF-8 is one byte per character, both ways. *)
Lemma utf8_encode_ascii (text : pystr) :
  forallb (fun c => c <? 0x80)%N text = true ->
  utf8_encode text = Some (List.map byte_of_N text).
Proof.
  induction text as [|c text IH]; simpl; [reflexivity |].
  intros H. apply andb_prop in H as [Hc Ht]. rewrite (IH Ht).
  unfold utf8_encode_cp. rewrite Hc. reflexivity.
Qed.


Lemma split_newline_shorter (buffer p r : bytes) :
  split_newline buffer = Some (p, r) -> (length r < length buffer)%nat.
Proof.
  revert p. induction buffer as [|b buffer IH]; intros p; simpl; [discriminate |].
  destruct (Byte.eqb b x0a).
  - intros [= _ <-]. lia.
  - destruct (split_newline buffer) as [[p' r']|]; simpl; [| discriminate].
    intros [= _ <-]. specialize (IH p' eq_refl). lia.
Qed.

Lemma split_newline_line (line rest : bytes) :
  Forall (fun b => b <> x0a) line ->
  split_newline (line ++ x0a :: rest) = Some (line, rest).
Proof.
  induction 1 as [|b line Hb _ IH]; simpl; [reflexivity |].
  destruct (Byte.eqb b x0a) eqn:E.
  - apply Byte.byte_dec_bl in E. contradiction.
  - rewrite IH. reflexivity.
Qed.


Lemma wire_message_printable (message : json) (text : pystr) :
  dumps message = Some text ->
  forallb printable text = true ->
  wire_message message = Some (List.map byte_of_N text ++ [x0a]).
Proof.
  intros Hd Hp. unfold wire_message. rewrite Hd. simpl.
  rewrite utf8_encode_ascii.
  - rewrite List.map_app. reflexivity.
  - rewrite forallb_app, (printable_ascii _ Hp). reflexivity.
Qed.

Ltac printable_pieces :=
  repeat rewrite forallb_app;
  rewrite ?dumps_str_printable, ?int_repr_printable; reflexivity.

(** The two shapes of message this client builds can always be written,
    and their text is printable ASCII. *)
Lemma radio_update_text (c : Client) (t : pystr) (r1 r2 : Z) :
  exists text,
    dumps (control_message c t (Some (radio_client_data r1 r2))) = Some text
    /\ forallb printable text = true.
Proof.
  unfold control_message, radio_client_data, radio_entry.
  lazy -[dumps_str int_repr app client_guid pilot_name forallb printable].
  eexists. split; [reflexivity |]. printable_pieces.
Qed.

Lemma plain_message_text (c : Client) (t : pystr) :
  exists text,
    dumps (control_message c t None) = Some text
    /\ forallb printable text = true.
Proof.
  unfold control_message.
  lazy -[dumps_str int_repr app client_guid pilot_name forallb printable].
  eexists. split; [reflexivity |]. printable_pieces.
Qed.

(** ** Connecting *)

(** C10.  [connect] on a client that is already running returns at once:
    the client object, the audio manager and the sockets of the process are
    as before, and the only effect is the line it prints; no socket is
    created, nothing is sent, no thread is started. *)
Theorem connect_while_running_is_noop (env : site -> option exn) (w : World) :
  is_running (client w) = true ->
  connect env w = (Ok tt, logged w [EvPrint LogAlreadyConnected]).
Proof.
  intros Hrun. unfold connect. unfold_monad. simpl. rewrite Hrun. reflexivity.
Qed.

Lemma connect_while_running_is_noop_witness :
  connect env_unreachable first_session
  = (Ok tt, logged first_session [EvPrint LogAlreadyConnected]).
Proof. apply (connect_while_running_is_noop env_unreachable first_session). reflexivity. Defined.

(** C1.  The client is built by [__init__] and the server cannot be
    reached.  [connect] returns normally and the client is not running, but
    the TCP socket it has created is still assigned to [tcp_sock] and still
    open: the [disconnect] that the handler calls returns at its test of
    [is_running], which is false at that point, before it closes anything. *)
Theorem connect_unreachable_leaks_socket (address : pystr) (port : Z)
    (name guid : pystr) (a : option AudioManager) (fd : handle)
    (socks : gset handle) (tr : list event) :
  let w := mkWorld (init address port name guid) a fd socks tr in
  let w' := exec (connect env_unreachable) w in
  result (connect env_unreachable) w = Ok tt
  /\ is_running (client w') = false
  /\ tcp_sock (client w') = Some fd
  /\ fd ∈ open_socks w'
  /\ trace w' = tr ++ [ EvPrint (LogConnecting address port);
                        EvTcpConnect fd address port;
                        EvPrint (LogFatalConnect OSError);
                        EvPrint LogNotConnected ].
Proof.
  unfold connect. unfold_monad. simpl.
  repeat split.
  - set_solver.
  - rewrite <- !app_assoc. reflexivity.
Qed.

(** The same when a later step fails: with the UDP socket created and its
    [bind] refused, both sockets stay open. *)
Lemma connect_bind_refused_leaks_both :
  let w' := exec (connect (fun s => match s with UdpBind => Some OSError | _ => None end))
              (boot sample_client None) in
  is_running (client w') = false
  /\ tcp_sock (client w') = Some 3%N /\ udp_sock (client w') = Some 4%N
  /\ 3%N ∈ open_socks w' /\ 4%N ∈ open_socks w'.
Proof.
  repeat split; try (vm_compute; reflexivity);
    apply bool_decide_unpack; vm_compute; exact I.
Qed.

Lemma connect_running_client (env : site -> option exn) (w : World) :
  is_running (client w) = true ->
  sockets_while_running (exec (connect env) w) = sockets_while_running w.
Proof.
  intros Hrun. unfold connect. unfold_monad. simpl. rewrite Hrun. reflexivity.
Qed.

(** Walks through the calls of [connect] that the environment may fail. *)
Ltac connect_cases env :=
  repeat match goal with
    | |- context [env ?s] =>
        let e := fresh "e" in
        destruct (env s) as [e|]; cbn -[union singleton difference];
        [ try (destruct (is_OSError e || bool_decide (e = OverflowError));
               cbn -[union singleton difference]) |]
    end.

(** A [connect] that starts from a client that is not running writes
    nothing to the TCP socket (the handshake runs while [is_running] is
    still false, so [_send_json_message] returns at its guard), and when it
    leaves the client running the two sockets are the ones it has created. *)
Lemma connect_not_running (env : site -> option exn) (w : World) :
  is_running (client w) = false ->
  tcp_writes (trace (exec (connect env) w)) = tcp_writes (trace w)
  /\ (is_running (client (exec (connect env) w)) = true ->
      tcp_sock (client (exec (connect env) w)) = Some (next_fd w)
      /\ udp_sock (client (exec (connect env) w)) = Some (N.succ (next_fd w))
      /\ open_socks (exec (connect env) w)
         = {[ N.succ (next_fd w) ]} ∪ ({[ next_fd w ]} ∪ open_socks w)).
Proof.
  destruct w as [[sa sp pn cg ts us vid run pt trt urt] am fd socks tr].
  cbn -[union singleton difference].
  intros ->. unfold connect, _perform_handshake, _send_json_message, disconnect.
  unfold_monad. cbn -[union singleton difference].
  connect_cases env.
  all: split; [rewrite ?tcp_writes_app; cbn; rewrite ?app_nil_r; reflexivity |].
  all: try discriminate.
  all: intros _; repeat split.
Qed.

Lemma disconnect_stops (w : World) : is_running (client (exec disconnect w)) = false.
Proof.
  unfold disconnect. unfold_monad.
  destruct (is_running (client w)) eqn:Hrun; simpl; [| exact Hrun].
  destruct (tcp_sock (client w)), (udp_sock (client w)); reflexivity.
Qed.

(** ** Sessions *)

(** C5, as stated, fails: a client that is connected, disconnected and
    connected again carries in its second session the identifier of the
    first. *)
Lemma reconnect_reuses_identifier :
  is_running (client first_session) = true
  /\ is_running (client between_sessions) = false
  /\ is_running (client second_session) = true
  /\ ~ (client_guid (client second_session) <> client_guid (client first_session)).
Proof. repeat split. intros H. apply H. reflexivity. Qed.

(** C5, amended.  The identifier is the one [__init__] generated:
    [disconnect] and [connect] leave it as it is, so a session after a
    reconnect carries the identifier of the session before.  The sockets are
    renewed: when the [connect] that follows a [disconnect] leaves the client
    running, its two sockets are the ones that call has created. *)
Theorem identifier_kept_sockets_renewed (env : site -> option exn) (w : World) :
  let w1 := exec disconnect w in
  let w2 := exec (connect env) w1 in
  client_guid (client w1) = client_guid (client w)
  /\ client_guid (client w2) = client_guid (client w)
  /\ (is_running (client w2) = true ->
      tcp_sock (client w2) = Some (next_fd w1)
      /\ udp_sock (client w2) = Some (N.succ (next_fd w1))
      /\ open_socks w2
         = {[ N.succ (next_fd w1) ]} ∪ ({[ next_fd w1 ]} ∪ open_socks w1)).
Proof.
  intros w1 w2.
  assert (H1 : client_guid (client w1) = client_guid (client w))
    by apply disconnect_same_identity.
  assert (H2 : client_guid (client w2) = client_guid (client w1))
    by apply connect_same_identity.
  split; [exact H1 |]. split; [congruence |].
  apply connect_not_running. apply disconnect_stops.
Qed.

Lemma identifier_kept_sockets_renewed_witness :
  client_guid (client second_session) = client_guid (client first_session)
  /\ tcp_sock (client second_session) = Some 5%N
  /\ udp_sock (client second_session) = Some 6%N.
Proof.
  destruct (identifier_kept_sockets_renewed env_ok first_session) as (_ & Hg & Hs).
  destruct (Hs eq_refl) as (Ht & Hu & _).
  split; [exact Hg |]. split; [exact Ht | exact Hu].
Defined.

(** ** A running client holds its sockets *)

#[local] Instance still_connected_preorder : PreOrder still_connected.
Proof.
  split.
  - intros w Hrun. repeat split. exact Hrun.
  - intros w1 w2 w3 H12 H23 Hrun.
    destruct (H23 Hrun) as (Hrun2 & Ht3 & Hu3).
    destruct (H12 Hrun2) as (Hrun1 & Ht2 & Hu2).
    repeat split; congruence.
Qed.

Lemma disconnect_still_connected : preserves still_connected disconnect.
Proof.
  intros w Hrun. rewrite disconnect_stops in Hrun. discriminate.
Qed.

Ltac still_connected_prim :=
  let w := fresh "w" in
  let H := fresh "H" in
  intros w H; unfold_monad; simpl in *;
  destruct w as [[] ? ? ? ?]; simpl in *; repeat split; solve [assumption | discriminate].

#[local] Hint Resolve disconnect_still_connected : frame.

Lemma _send_json_message_still_connected msg_type client_data r :
  preserves still_connected (_send_json_message msg_type client_data r).
Proof.
  unfold _send_json_message. repeat preserves_step; still_connected_prim.
Qed.

#[local] Hint Resolve _send_json_message_still_connected : frame.

Lemma send_radio_update_still_connected r1 r2 r :
  preserves still_connected (send_radio_update r1 r2 r).
Proof.
  unfold send_radio_update.
  repeat preserves_step; first [ solve [auto with frame] | still_connected_prim ].
Qed.

Lemma send_voice_packet_still_connected payload radio_num r :
  preserves still_connected (send_voice_packet payload radio_num r).
Proof.
  unfold send_voice_packet.
  repeat preserves_step; first [ solve [auto with frame] | still_connected_prim ].
Qed.

Lemma _ping_loop_step_still_connected : preserves still_connected _ping_loop_step.
Proof.
  unfold _ping_loop_step, _send_ping.
  repeat preserves_step; first [ solve [auto with frame] | still_connected_prim ].
Qed.

Lemma handle_packet_still_connected json_loads packet_data :
  preserves still_connected (handle_packet json_loads packet_data).
Proof.
  unfold handle_packet.
  repeat preserves_step; first [ solve [auto with frame] | still_connected_prim ].
Qed.

#[local] Hint Resolve handle_packet_still_connected : frame.

Lemma drain_lines_still_connected json_loads fuel buffer :
  preserves still_connected (drain_lines json_loads fuel buffer).
Proof.
  revert buffer. induction fuel as [|n IH]; intros buffer; simpl;
    repeat preserves_step; first [ solve [auto with frame] | still_connected_prim ].
Qed.

#[local] Hint Resolve drain_lines_still_connected : frame.

Lemma _tcp_receive_step_still_connected json_loads r buffer :
  preserves still_connected (_tcp_receive_step json_loads r buffer).
Proof.
  unfold _tcp_receive_step, process_buffer.
  repeat preserves_step; first [ solve [auto with frame] | still_connected_prim ].
Qed.

#[local] Hint Resolve _tcp_receive_step_still_connected : frame.

Lemma tcp_receive_rounds_still_connected json_loads recvs buffer :
  preserves still_connected (tcp_receive_rounds json_loads recvs buffer).
Proof.
  revert buffer. induction recvs as [|r recvs IH]; intros buffer; simpl;
    repeat preserves_step; first [ solve [auto with frame] | still_connected_prim ].
Qed.

(** Whatever is called on the client, as long as it is running it holds a
    TCP and a UDP socket: the guards of the sending methods then reduce to
    the test of [is_running]. *)
Lemma run_op_sockets_while_running (o : op) (w : World) :
  sockets_while_running w -> sockets_while_running (exec (run_op o) w).
Proof.
  intros Hinv.
  assert (Hstill : still_connected w (exec (run_op o) w) ->
                   sockets_while_running (exec (run_op o) w)).
  { intros Hs Hrun. destruct (Hs Hrun) as (Hrun0 & -> & ->). apply Hinv. exact Hrun0. }
  destruct o as [env| |payload radio_num r|r1 r2 r| |recvs]; simpl.
  - destruct (is_running (client w)) eqn:Hrun.
    + rewrite (connect_running_client env w Hrun). exact Hinv.
    + intros Hrun'. destruct (connect_not_running env w Hrun) as [_ Hs].
      destruct (Hs Hrun') as (-> & -> & _). split; discriminate.
  - apply Hstill, disconnect_still_connected.
  - apply Hstill, send_voice_packet_still_connected.
  - apply Hstill, send_radio_update_still_connected.
  - apply Hstill. apply (preserves_discard still_connected).
    apply _ping_loop_step_still_connected.
  - apply Hstill. apply (preserves_discard still_connected).
    apply tcp_receive_rounds_still_connected.
Qed.

Lemma run_ops_sockets_while_running (ops : list op) (w : World) :
  sockets_while_running w -> sockets_while_running (run_ops ops w).
Proof.
  revert w. induction ops as [|o ops IH]; intros w Hinv; simpl; [exact Hinv |].
  apply IH. apply run_op_sockets_while_running. exact Hinv.
Qed.

Lemma init_sockets_while_running address port name guid a :
  sockets_while_running (boot (init address port name guid) a).
Proof. intros Hrun. discriminate Hrun. Qed.

(** ** The voice counter *)

Lemma send_voice_packet_not_ready payload radio_num r w :
  voice_ready w = false ->
  send_voice_packet payload radio_num r w = (Ok tt, w).
Proof.
  unfold voice_ready, send_voice_packet. unfold_monad.
  destruct (is_running (client w)); [| reflexivity].
  destruct (udp_sock (client w)); [| reflexivity].
  simpl. discriminate.
Qed.

(** The counter goes up by one in every call that passes the guard,
    whether the packet is sent, the send fails, or the header cannot be
    built: the increment comes first. *)
Lemma send_voice_packet_increments payload radio_num r w :
  voice_ready w = true ->
  voice_packet_id (client (exec (send_voice_packet payload radio_num r) w))
  = voice_packet_id (client w) + 1.
Proof.
  unfold voice_ready, send_voice_packet. unfold_monad.
  destruct w as [[sa sp pn cg ts us vid run pt trt urt] am fd socks tr]. simpl.
  destruct run; [| discriminate]. destruct us as [sock|]; [| discriminate].
  intros _. simpl.
  destruct (utf8_encode cg) as [g|]; simpl;
    [ destruct (struct_pack_Q (vid + 1)) as [q|]; simpl; [ destruct r; simpl |] |];
    unfold disconnect; unfold_monad; simpl;
    destruct ts; reflexivity.
Qed.

Lemma run_op_same_counter (o : op) (w : World) :
  match o with
  | OpSendVoice _ _ _ => voice_ready w = false
  | _ => True
  end ->
  voice_packet_id (client (exec (run_op o) w)) = voice_packet_id (client w).
Proof.
  destruct o as [env| |payload radio_num r|r1 r2 r| |recvs]; simpl; intros H.
  - apply connect_same_counter.
  - apply disconnect_same_counter.
  - unfold exec. rewrite send_voice_packet_not_ready by exact H. reflexivity.
  - apply send_radio_update_same_counter.
  - apply (preserves_discard same_counter). apply _ping_loop_step_same_counter.
  - apply (preserves_discard same_counter). apply tcp_receive_rounds_same_counter.
Qed.

(** C2.  In any run of calls on the client (connecting, disconnecting,
    sending voice with or without a failing [sendto], radio updates, ping
    rounds, the TCP receive loop), the calls of [send_voice_packet] that find
    the client connected take the counter from [k] to [k+1], from [k+1] to
    [k+2], and so on: each adds exactly one, nothing in between changes it,
    so it is never decremented and no value is used twice.  At the end the
    counter has grown by the number of those calls. *)
Theorem voice_counter_steps_by_one (ops : list op) (w : World) :
  voice_steps ops w
  = unit_steps (voice_packet_id (client w)) (length (voice_steps ops w))
  /\ voice_packet_id (client (run_ops ops w))
     = voice_packet_id (client w) + Z.of_nat (length (voice_steps ops w)).
Proof.
  revert w. induction ops as [|o ops IH]; intros w.
  - simpl. split; [reflexivity | lia].
  - destruct (IH (exec (run_op o) w)) as [IHs IHf].
    assert (Hother : (forall p n r, o <> OpSendVoice p n r) \/ voice_ready w = false ->
              voice_packet_id (client (exec (run_op o) w)) = voice_packet_id (client w)).
    { intros Hc. apply run_op_same_counter.
      destruct o; try exact I. destruct Hc as [Hc|Hc]; [| exact Hc].
      exfalso. eapply Hc. reflexivity. }
    simpl run_ops. fold (run_ops ops (exec (run_op o) w)).
    destruct o as [env| |payload radio_num r|r1 r2 r| |recvs];
      try (simpl voice_steps; rewrite <- Hother by (left; discriminate);
           split; [exact IHs | exact IHf]).
    simpl voice_steps. destruct (voice_ready w) eqn:Hready.
    + pose proof (send_voice_packet_increments payload radio_num r w Hready) as Hinc.
      change (run_op (OpSendVoice payload radio_num r))
        with (send_voice_packet payload radio_num r) in *.
      rewrite Hinc in IHs, IHf. simpl length. simpl unit_steps. rewrite Hinc.
      split.
      * f_equal. exact IHs.
      * rewrite IHf. lia.
    + rewrite <- Hother by (right; reflexivity). split; [exact IHs | exact IHf].
Qed.

(** A run with a send that fails, a send on the disconnected client, a
    reconnect and two more sends. *)
Example voice_steps_sample :
  voice_steps [ OpSendVoice [x01] 1 None;
                OpSendVoice [x02] 1 (Some OSError);
                OpSendVoice [x03] 1 None;
                OpConnect env_ok;
                OpSendVoice [x04] 2 None;
                OpSendVoice [x05] 2 None ] first_session
  = [(0, 1); (1, 2); (2, 3); (3, 4)].
Proof. vm_compute. reflexivity. Qed.

(** ** The voice datagram *)

(** C3.  A call of [send_voice_packet] on a connected client whose
    identifier encodes to the bytes [g] and whose next sequence number fits
    64 bits hands exactly one datagram to the UDP socket, addressed to the
    server: eight bytes that read, least significant first, as the new
    sequence number; then [g]; then one zero byte; then the payload as it
    was given, with nothing before it. *)
Theorem voice_datagram_layout (payload : bytes) (radio_num : Z) (r : option exn)
    (w : World) (sock : handle) (g : bytes) :
  is_running (client w) = true ->
  udp_sock (client w) = Some sock ->
  utf8_encode (client_guid (client w)) = Some g ->
  0 <= voice_packet_id (client w) + 1 < 2 ^ 64 ->
  exists (sequence : bytes) (rest : list event),
    trace (exec (send_voice_packet payload radio_num r) w)
    = trace w
        ++ EvSendto sock (sequence ++ g ++ [x00] ++ payload)
             (server_address (client w)) (server_port (client w)) :: rest
    /\ udp_datagrams rest = []
    /\ length sequence = 8%nat
    /\ Z.of_N (le_value sequence) = voice_packet_id (client w) + 1.
Proof.
  intros Hrun Hsock Hguid Hrange.
  destruct (struct_pack_Q_in_range _ Hrange) as [q Hq].
  destruct (struct_pack_Q_spec _ _ Hq) as [Hlen Hval].
  exists q.
  unfold send_voice_packet. unfold_monad.
  destruct w as [[sa sp pn cg ts us vid run pt trt urt] am fd socks tr].
  simpl in *. subst run us. rewrite Hguid. simpl. rewrite Hq. simpl.
  destruct r as [e|]; simpl.
  - unfold disconnect. unfold_monad. simpl.
    eexists. split.
    + destruct ts; simpl; rewrite <- !app_assoc; simpl; reflexivity.
    + repeat split; assumption.
  - exists []. rewrite <- !app_assoc. repeat split; assumption.
Qed.

Lemma voice_datagram_layout_witness :
  exists (sequence : bytes) (rest : list event),
    trace (exec (send_voice_packet [xde; xad] 1 None) first_session)
    = trace first_session
        ++ EvSendto 4%N
             (sequence ++ List.map byte_of_N (client_guid sample_client)
                ++ [x00] ++ [xde; xad])
             (pystr_of_string "10.0.0.5") 6002 :: rest
    /\ udp_datagrams rest = []
    /\ length sequence = 8%nat
    /\ Z.of_N (le_value sequence) = 1.
Proof.
  apply (voice_datagram_layout [xde; xad] 1 None first_session 4%N
           (List.map byte_of_N (client_guid sample_client))).
  - reflexivity.
  - reflexivity.
  - vm_compute. reflexivity.
  - change (0 <= 0 + 1 < 2 ^ 64). lia.
Defined.

(** In every case, also when the header cannot be built, a call hands at
    most one datagram to the socket. *)
Lemma send_voice_packet_at_most_one (payload : bytes) (radio_num : Z)
    (r : option exn) (w : World) :
  exists evs : list event,
    trace (exec (send_voice_packet payload radio_num r) w) = trace w ++ evs
    /\ (length (udp_datagrams evs) <= 1)%nat.
Proof.
  unfold send_voice_packet. unfold_monad.
  destruct w as [[sa sp pn cg ts us vid run pt trt urt] am fd socks tr]. simpl.
  destruct run; [| exists []; rewrite app_nil_r; split; [reflexivity | simpl; lia]].
  destruct us as [sock|];
    [| exists []; rewrite app_nil_r; split; [reflexivity | simpl; lia]].
  simpl.
  destruct (utf8_encode cg) as [g|]; simpl;
    [ destruct (struct_pack_Q (vid + 1)) as [q|]; simpl; [ destruct r; simpl |] |];
    unfold disconnect; unfold_monad; simpl;
    try destruct ts; simpl; rewrite <- ?app_assoc; simpl;
    eexists; (split; [reflexivity | simpl; lia]).
Qed.

(** The first datagram of the sample session, byte for byte: sequence
    number 1, the 36 characters of the identifier, a zero byte, the two
    bytes of the payload. *)
Example voice_datagram_sample :
  udp_datagrams (trace (exec (send_voice_packet [xde; xad] 1 None) first_session))
  = [ ([x01; x00; x00; x00; x00; x00; x00; x00]
         ++ list_byte_of_string "0f8fad5b-d9cb-469f-a165-70867728950e"
         ++ [x00; xde; xad],
       pystr_of_string "10.0.0.5", 6002) ].
Proof. vm_compute. reflexivity. Qed.

(** ** Received datagrams *)

Lemma received_voice_none (data : bytes) :
  received_voice data = None <-> data = [].
Proof. destruct data; simpl; split; intros H; try reflexivity; discriminate. Qed.

(** C4.  With the UDP socket in place, a datagram of length zero is
    rejected by the receive loop: it is not turned into a received voice,
    and whatever the callback is, the round leaves the whole world as it was
    (the client, the audio manager with its output stream, the trace of
    device and socket effects) and the loop goes on.  The callback is
    therefore not called, and nothing is done on the output device. *)
Theorem empty_datagram_dropped (cb : ReceivedVoice -> M unit) (w : World)
    (sock : handle) :
  udp_sock (client w) = Some sock ->
  received_voice [] = None
  /\ _udp_receive_step cb (RecvData []) w = (Ok Continue, w).
Proof.
  intros Hsock. split; [reflexivity |].
  unfold _udp_receive_step. unfold_monad. rewrite Hsock. reflexivity.
Qed.

Lemma empty_datagram_dropped_witness :
  _udp_receive_step (_handle_received_audio exact_rounding tenfold_gain sample_playback)
    (RecvData []) first_session
  = (Ok Continue, first_session).
Proof.
  destruct (empty_datagram_dropped
              (_handle_received_audio exact_rounding tenfold_gain sample_playback)
              first_session 4%N eq_refl) as [_ H].
  exact H.
Defined.

(** A datagram that is not empty does reach the callback. *)
Lemma nonempty_datagram_delivered (cb : ReceivedVoice -> M unit) (w : World)
    (sock : handle) (b : byte) (data : bytes) :
  udp_sock (client w) = Some sock ->
  result (cb {| audio_payload := b :: data; sender_guid := None |}) w = Ok tt ->
  _udp_receive_step cb (RecvData (b :: data)) w
  = (Ok Continue, exec (cb {| audio_payload := b :: data; sender_guid := None |}) w).
Proof.
  intros Hsock. unfold _udp_receive_step. unfold_monad. rewrite Hsock. simpl.
  destruct (cb _ w) as [[[]|e] w']; simpl; [reflexivity | discriminate].
Qed.

(** With the playback callback of [main.py], a first datagram that is not
    empty opens the output stream and writes the boosted samples. *)
Example nonempty_datagram_played :
  trace (exec (_udp_receive_step
                 (_handle_received_audio exact_rounding tenfold_gain sample_playback)
                 (RecvData [x01])) first_session)
  = trace first_session
      ++ [ EvStreamStart (OutputStream (pystr_of_string "default"));
           EvStreamWrite (OutputStream (pystr_of_string "default")) [32767; -32767] ].
Proof. vm_compute. reflexivity. Qed.

(** ** The ping and the control messages *)

Lemma _send_ping_noop (w : World) : _send_ping w = (Ok tt, w).
Proof.
  unfold _send_ping, _send_json_message. unfold_monad.
  destruct (is_running (client w)); [| reflexivity].
  destruct (tcp_sock (client w)); reflexivity.
Qed.

Lemma _ping_loop_step_running (w : World) :
  is_running (client w) = true ->
  _ping_loop_step w = (Ok Continue, logged w [EvSleep 4]).
Proof.
  intros Hrun. unfold _ping_loop_step. unfold_monad.
  rewrite Hrun. rewrite _send_ping_noop. reflexivity.
Qed.

Lemma _ping_loop_running (rounds : nat) (w : World) :
  is_running (client w) = true ->
  _ping_loop rounds w = (Ok tt, logged w (repeat (EvSleep 4) rounds)).
Proof.
  revert w. induction rounds as [|n IH]; intros w Hrun.
  - simpl. rewrite logged_nil. reflexivity.
  - cbn [_ping_loop]. unfold mbind, M_bind.
    rewrite (_ping_loop_step_running w Hrun).
    rewrite IH by exact Hrun. rewrite logged_logged. reflexivity.
Qed.

Lemma tcp_writes_repeat_sleep (n : nat) : tcp_writes (repeat (EvSleep 4) n) = [].
Proof. induction n; simpl; auto. Qed.

(** On a connected client a message of a kind other than PING is written
    with one [sendall]. *)
Lemma _send_json_message_sends (msg_type : pystr) (client_data : option pydict)
    (r : option exn) (w : World) (sock : handle) (packet : bytes) :
  is_running (client w) = true ->
  tcp_sock (client w) = Some sock ->
  pystr_eqb msg_type JSON_MSG_TYPE_PING = false ->
  wire_message (control_message (client w) msg_type client_data) = Some packet ->
  _send_json_message msg_type client_data r w
  = (match r with None => Ok tt | Some e => Raise e end,
     logged w [EvSendall sock packet]).
Proof.
  intros Hrun Hsock Hping Hwire. unfold _send_json_message. unfold_monad.
  rewrite Hrun, Hsock, Hping. unfold wire_message in Hwire.
  destruct (dumps _) as [text|]; [| discriminate]. simpl in Hwire.
  rewrite Hwire. destruct r; reflexivity.
Qed.

Lemma send_radio_update_world (r1 r2 : Z) (r : option exn) (w : World)
    (sock : handle) (packet : bytes) :
  is_running (client w) = true ->
  tcp_sock (client w) = Some sock ->
  wire_message (control_message (client w) JSON_MSG_TYPE_RADIO_UPDATE
                  (Some (radio_client_data r1 r2))) = Some packet ->
  exists rest,
    trace (exec (send_radio_update r1 r2 r) w)
    = trace w ++ EvSendall sock packet :: rest
    /\ tcp_writes rest = [].
Proof.
  intros Hrun Hsock Hwire. unfold send_radio_update.
  unfold exec, mbind, M_bind, get_client, try_except. rewrite Hrun, Hsock.
  cbv zeta.
  assert (Hping : pystr_eqb JSON_MSG_TYPE_RADIO_UPDATE JSON_MSG_TYPE_PING = false)
    by reflexivity.
  rewrite (_send_json_message_sends _ _ r w sock packet Hrun Hsock Hping Hwire).
  destruct r as [e|]; simpl.
  - unfold disconnect. unfold_monad. simpl. rewrite Hrun, Hsock. simpl.
    destruct (udp_sock (client w)); simpl; rewrite <- !app_assoc; simpl;
      eexists; split; reflexivity.
  - exists []. split; reflexivity.
Qed.

Lemma handshake_writes_one (r : option exn) (w : World) (sock : handle) :
  is_running (client w) = true ->
  tcp_sock (client w) = Some sock ->
  exists packet,
    tcp_writes (trace (exec (_perform_handshake r) w))
    = tcp_writes (trace w) ++ [packet].
Proof.
  intros Hrun Hsock.
  destruct (plain_message_text (client w) JSON_MSG_TYPE_SYNC) as (text & Hd & Hp).
  pose proof (wire_message_printable _ _ Hd Hp) as Hwire.
  assert (Hping : pystr_eqb JSON_MSG_TYPE_SYNC JSON_MSG_TYPE_PING = false)
    by reflexivity.
  eexists. unfold _perform_handshake, exec, mbind, M_bind.
  rewrite (_send_json_message_sends _ _ r w sock _ Hrun Hsock Hping Hwire).
  destruct r; simpl; rewrite ?tcp_writes_app; simpl; rewrite ?app_nil_r; reflexivity.
Qed.

Lemma radio_update_writes_one (r1 r2 : Z) (r : option exn) (w : World) (sock : handle) :
  is_running (client w) = true ->
  tcp_sock (client w) = Some sock ->
  exists packet,
    tcp_writes (trace (exec (send_radio_update r1 r2 r) w))
    = tcp_writes (trace w) ++ [packet].
Proof.
  intros Hrun Hsock.
  destruct (radio_update_text (client w) JSON_MSG_TYPE_RADIO_UPDATE r1 r2)
    as (text & Hdumps & Hprint).
  pose proof (wire_message_printable _ _ Hdumps Hprint) as Hwire.
  destruct (send_radio_update_world r1 r2 r w sock _ Hrun Hsock Hwire)
    as (rest & Htrace & Hrest).
  eexists. rewrite Htrace, tcp_writes_app. simpl. rewrite Hrest. reflexivity.
Qed.

(** C6.  On a connected client the encoder in PING mode returns at once
    and leaves the world as it was.  A round of the ping loop therefore
    only sleeps: any number of rounds writes nothing to the TCP socket and
    leaves the client object unchanged.  Of the three kinds of message the
    client hands to the encoder, the ones that put a packet on the socket
    are SYNC and RADIO_UPDATE, and no other. *)
Theorem ping_has_no_wire_effect (rounds : nat) (c : control_call) (w : World)
    (sock : handle) :
  is_running (client w) = true ->
  tcp_sock (client w) = Some sock ->
  _send_ping w = (Ok tt, w)
  /\ _ping_loop_step w = (Ok Continue, logged w [EvSleep 4])
  /\ _ping_loop rounds w = (Ok tt, logged w (repeat (EvSleep 4) rounds))
  /\ tcp_writes (trace (exec (_ping_loop rounds) w)) = tcp_writes (trace w)
  /\ client (exec (_ping_loop rounds) w) = client w
  /\ ((exists packet,
         tcp_writes (trace (exec (run_control_call c) w))
         = tcp_writes (trace w) ++ [packet])
      <-> control_msg_type c = JSON_MSG_TYPE_SYNC
          \/ control_msg_type c = JSON_MSG_TYPE_RADIO_UPDATE)
  /\ (control_msg_type c = JSON_MSG_TYPE_PING ->
      exec (run_control_call c) w = w).
Proof.
  intros Hrun Hsock.
  pose proof (_ping_loop_running rounds w Hrun) as Hloop.
  split; [apply _send_ping_noop |].
  split; [apply _ping_loop_step_running; exact Hrun |].
  split; [exact Hloop |].
  unfold exec at 1 2. rewrite Hloop. simpl.
  split; [rewrite tcp_writes_app, tcp_writes_repeat_sleep; apply app_nil_r |].
  split; [reflexivity |].
  destruct c as [r|r1 r2 r|]; simpl.
  - split; [| discriminate]. split; [intros _; left; reflexivity |].
    intros _. apply (handshake_writes_one r w sock Hrun Hsock).
  - split; [| discriminate]. split; [intros _; right; reflexivity |].
    intros _. apply (radio_update_writes_one r1 r2 r w sock Hrun Hsock).
  - unfold exec. rewrite _send_ping_noop. simpl. split; [| reflexivity]. split.
    + intros [packet H]. symmetry in H.
      rewrite <- (app_nil_r (tcp_writes (trace w))) in H at 2.
      apply app_inv_head in H. discriminate.
    + intros [H|H]; discriminate.
Qed.

Lemma ping_has_no_wire_effect_witness :
  _ping_loop 3 first_session
  = (Ok tt, logged first_session [EvSleep 4; EvSleep 4; EvSleep 4])
  /\ tcp_writes (trace (exec (_ping_loop 3) first_session)) = [].
Proof.
  destruct (ping_has_no_wire_effect 3 Ping first_session 3%N eq_refl eq_refl)
    as (_ & _ & Hloop & Hwrites & _).
  split; [exact Hloop | exact Hwrites].
Defined.



(** The line written for channels 3 and 7, read back by the decoder of
    the [json] module, is a dictionary with the four entries of a message. *)
Example radio_update_line_parses :
  match tcp_writes (trace (exec (send_radio_update 3 7 None) first_session)) with
  | [packet] =>
      match split_newline packet with
      | Some (line, []) =>
          match opt_bind (utf8_decode line) py_json_loads with
          | Some (JDict d) => List.map fst d
          | _ => []
          end
      | _ => []
      end
  | _ => []
  end
  = [ pystr_of_string "MsgType"; pystr_of_string "ServerType";
      pystr_of_string "Version"; pystr_of_string "Client" ].
Proof. vm_compute. reflexivity. Qed.

(** ** Lines of the control channel *)

Section TcpReceiveFacts.

Variable json_loads : pystr -> Res json.

Lemma drain_lines_fuel (n m : nat) (buffer : bytes) (w : World) :
  (length buffer <= n)%nat -> (length buffer <= m)%nat ->
  drain_lines json_loads n buffer w = drain_lines json_loads m buffer w.
Proof.
  revert m buffer w. induction n as [|n IH]; intros m buffer w Hn Hm.
  - destruct buffer; [| simpl in Hn; lia]. destruct m; reflexivity.
  - destruct m as [|m].
    + destruct buffer; [| simpl in Hm; lia]. reflexivity.
    + simpl. destruct (split_newline buffer) as [[p r]|] eqn:Hs; [| reflexivity].
      apply split_newline_shorter in Hs.
      unfold mbind, M_bind.
      destruct (handle_packet json_loads p w) as [[[]|e] w']; [| reflexivity].
      apply IH; lia.
Qed.

(** The inner loop, one round at a time: it never stops for lack of
    fuel. *)
Lemma process_buffer_line (buffer p r : bytes) (w : World) :
  split_newline buffer = Some (p, r) ->
  process_buffer json_loads buffer w
  = (handle_packet json_loads p ;; process_buffer json_loads r) w.
Proof.
  intros Hs. unfold process_buffer.
  pose proof (split_newline_shorter _ _ _ Hs) as Hlen.
  destruct (length buffer) as [|n] eqn:Hn; [lia |].
  simpl. rewrite Hs. unfold mbind, M_bind.
  destruct (handle_packet json_loads p w) as [[[]|e] w']; [| reflexivity].
  apply drain_lines_fuel; lia.
Qed.

Lemma process_buffer_partial (buffer : bytes) (w : World) :
  split_newline buffer = None ->
  process_buffer json_loads buffer w = (Ok buffer, w).
Proof.
  intros Hs. unfold process_buffer. destruct (length buffer); simpl; [reflexivity |].
  rewrite Hs. reflexivity.
Qed.



(** An exception of another class than the two the inner handler names
    is not absorbed there: it ends the round, and with it the loop. *)
Lemma other_exception_ends_round (line : bytes) (text : pystr) (e : exn)
    (w : World) (sock : handle) :
  Forall (fun b => b <> x0a) line ->
  line <> [] ->
  utf8_decode line = Some text ->
  json_loads text = Raise e ->
  e <> JSONDecodeError -> e <> UnicodeDecodeError -> e <> ConnectionResetError ->
  tcp_sock (client w) = Some sock ->
  is_running (client w) = true ->
  _tcp_receive_step json_loads (RecvData (line ++ [x0a])) [] w
  = (Ok (Break, []), logged w [EvPrint (LogReceiveError e)]).
Proof.
  intros Hnl Hne Hdec Hload H1 H2 H3 Hsock Hrun.
  unfold _tcp_receive_step, try_except, mbind, M_bind, get_client.
  rewrite Hsock. destruct line as [|b line]; [contradiction |].
  cbn -[process_buffer].
  change (b :: line ++ [x0a]) with ((b :: line) ++ [x0a]).
  rewrite (process_buffer_line _ (b :: line) [] w (split_newline_line _ _ Hnl)).
  unfold mbind, M_bind, handle_packet, try_except.
  rewrite Hdec, Hload. unfold raise.
  rewrite !bool_decide_false by assumption. simpl.
  rewrite (bool_decide_false _ H3). rewrite Hrun. reflexivity.
Qed.

End TcpReceiveFacts.



(** A stream with a good line, a malformed one, an empty one, a line that
    is not UTF-8, a good line again and the start of another, then the end
    of the connection: every complete line is handled, and only the end of
    the connection stops the loop. *)
Example tcp_receive_sample :
  let stream :=
    [ RecvData (list_byte_of_string "[1, 2]" ++ [x0a]
                ++ list_byte_of_string "{bad" ++ [x0a; x0a; xff; x0a]
                ++ list_byte_of_string "{}" ++ [x0a]
                ++ list_byte_of_string "{par");
      RecvData [] ] in
  _tcp_receive_loop py_loads stream first_session
  = (Ok Exited,
     mkWorld (with_is_running false (client first_session))
       (audio_manager first_session) (next_fd first_session)
       (open_socks first_session)
       (trace first_session
          ++ [ EvPrint (LogReceivedJson (JList [JInt 1; JInt 2]));
               EvPrint (LogCouldNotDecode JSONDecodeError);
               EvPrint (LogRawData (list_byte_of_string "{bad"));
               EvPrint (LogCouldNotDecode UnicodeDecodeError);
               EvPrint (LogRawData [xff]);
               EvPrint (LogReceivedJson (JDict []));
               EvPrint LogClosedByServer;
               EvPrint LogTcpLoopStopped ])).
Proof. vm_compute. reflexivity. Qed.

(** ** The gain stage *)

Lemma int16_of_bits_id (z : Z) : -32768 <= z <= 32767 -> int16_of_bits z = z.
Proof. intros H. unfold int16_of_bits. rewrite Z.mod_small; lia. Qed.

Lemma clip_unit_bounds (x : Q) : (-1 <= clip_unit x <= 1)%Q.
Proof.
  unfold clip_unit.
  destruct (Qle_bool x (-1)) eqn:E1; [lra |].
  destruct (Qle_bool 1 x) eqn:E2; [lra |].
  assert (H1 : ~ (x <= -1)%Q) by (rewrite <- Qle_bool_iff, E1; discriminate).
  assert (H2 : ~ (1 <= x)%Q) by (rewrite <- Qle_bool_iff, E2; discriminate).
  lra.
Qed.

Lemma Qtrunc_bounds (x : Q) (b : Z) :
  0 <= b -> (inject_Z (- b) <= x <= inject_Z b)%Q -> - b <= Qtrunc x <= b.
Proof.
  intros Hb [Hlo Hhi]. unfold Qtrunc.
  destruct (Qle_bool 0 x) eqn:E.
  - apply Qle_bool_iff in E. split.
    + pose proof (Qfloor_resp_le _ _ E) as H. change (Qfloor 0) with 0 in H. lia.
    + rewrite <- (Qfloor_Z b). apply Qfloor_resp_le. exact Hhi.
  - assert (H : ~ (0 <= x)%Q) by (rewrite <- Qle_bool_iff, E; discriminate).
    split.
    + rewrite <- (Qceiling_Z (- b)). apply Qceiling_resp_le. exact Hlo.
    + assert (Hx : (x <= 0)%Q) by lra.
      pose proof (Qceiling_resp_le _ _ Hx) as H'.
      change (Qceiling 0) with 0 in H'. lia.
Qed.

Section GainStage.

Variable round_f32 : Q -> Q.
Variable boost_gain : Q -> Res Q.

(** Rounding to the nearest [float32] keeps the order, and the two bounds
    of the scaled range, 32767 and its opposite, are [float32] values. *)
Hypothesis round_f32_monotone :
  forall x y : Q, (x <= y)%Q -> (round_f32 x <= round_f32 y)%Q.
Hypothesis round_f32_max : (round_f32 32767 == 32767)%Q.
Hypothesis round_f32_min : (round_f32 (-32767) == -32767)%Q.

Lemma clipped_bounds (gain : Q) (sample : Z) :
  (-1 <= clipped round_f32 gain sample <= 1)%Q.
Proof. unfold clipped. apply clip_unit_bounds. Qed.

Lemma denormalized_bounds (gain : Q) (sample : Z) :
  (-32767 <= denormalized round_f32 gain sample <= 32767)%Q.
Proof.
  unfold denormalized.
  pose proof (clipped_bounds gain sample) as [Hlo Hhi].
  set (c := clipped round_f32 gain sample) in *.
  assert (H1 : (round_f32 (-32767) <= round_f32 (c * 32767))%Q)
    by (apply round_f32_monotone; lra).
  assert (H2 : (round_f32 (c * 32767) <= round_f32 32767)%Q)
    by (apply round_f32_monotone; lra).
  lra.
Qed.

Lemma boost_sample_exact (gain : Q) (sample : Z) :
  boost_sample round_f32 gain sample = Qtrunc (denormalized round_f32 gain sample)
  /\ -32767 <= boost_sample round_f32 gain sample <= 32767.
Proof.
  pose proof (denormalized_bounds gain sample) as Hb.
  assert (Ht : - 32767 <= Qtrunc (denormalized round_f32 gain sample) <= 32767)
    by (apply (Qtrunc_bounds _ 32767); [lia | exact Hb]).
  unfold boost_sample, int16_of_float. rewrite int16_of_bits_id by lia.
  split; [reflexivity | lia].
Qed.

(** C9.  Whatever the frame and the boost, when the gain stage produces
    samples, the value scaled back by 32767 is at most 32767 in magnitude
    for every sample, the conversion to [int16] only drops its fraction (the
    wrap-around of the conversion does not come into play), and every sample
    written lies in the range of [int16].  Floats are taken as the rational
    numbers they stand for, and rounding to [float32] as a monotone function
    that leaves 32767 and its opposite as they are. *)
Theorem gain_stage_within_int16 (db : Q) (frame out : list Z) :
  apply_speaker_boost round_f32 boost_gain db frame = Ok out ->
  exists gain : Q,
    boost_gain db = Ok gain
    /\ out = List.map (fun s => Qtrunc (denormalized round_f32 gain s)) frame
    /\ Forall (fun s => (Qabs (denormalized round_f32 gain s) <= 32767)%Q) frame
    /\ Forall (fun o => -32768 <= o <= 32767) out.
Proof.
  unfold apply_speaker_boost. destruct (boost_gain db) as [gain|e]; [| discriminate].
  intros [= <-]. exists gain. split; [reflexivity |].
  split; [| split].
  - apply List.map_ext. intros s. apply boost_sample_exact.
  - apply List.Forall_forall. intros s _. apply Qabs_Qle_condition.
    apply denormalized_bounds.
  - apply List.Forall_forall. intros o Ho.
    apply List.in_map_iff in Ho as (s & <- & _).
    pose proof (boost_sample_exact gain s) as [_ H]. lia.
Qed.

End GainStage.

Lemma gain_stage_within_int16_witness :
  apply_speaker_boost exact_rounding tenfold_gain 20
    [100; -20000; 32767; -32768; 0; 3277]
  = Ok [999; -32767; 32767; -32767; 0; 32767]
  /\ Forall (fun o => -32768 <= o <= 32767) [999; -32767; 32767; -32767; 0; 32767].
Proof.
  assert (Hrun : apply_speaker_boost exact_rounding tenfold_gain 20
                   [100; -20000; 32767; -32768; 0; 3277]
                 = Ok [999; -32767; 32767; -32767; 0; 32767])
    by (vm_compute; reflexivity).
  split; [exact Hrun |].
  destruct (gain_stage_within_int16 exact_rounding tenfold_gain
              (fun x y H => H) (Qeq_refl _) (Qeq_refl _) 20 _ _ Hrun)
    as (_ & _ & _ & _ & H).
  exact H.
Defined.
